(** * Titanic data app: the query layer of [app.py], embedded in Rocq

    The Python module serves a cached pandas [DataFrame] through a handful of
    read-only routes.  This development embeds the routes as functions over an
    explicit table and proves what they compute.

    Conventions of the embedding.
    - The table returned by [get_df] is the output of [_clean]: the numeric
      columns hold numbers or a missing value, the text columns hold text or a
      missing value.  A row is a record of nullable fields; the frame also
      records which columns are present, because the routes branch and fail
      on column presence.
    - Python integers are [Z].  Python floats are modelled by exact rationals
      [Q]; [None] in an [option Q] stands for NaN.  Infinities are not
      modelled.
    - A Python exception is the [Raise] branch of [result].
    - A Series computed elementwise from a frame is modelled by the function
      that computes its entry from a row. *)

From Stdlib Require Import ZArith QArith Qround List String Ascii Bool Lia Lqa.
From Stdlib Require Import Permutation Sorted.
Import ListNotations.

Open Scope Z_scope.

(** ** Exceptions and the error monad *)

Inductive exn : Type :=
| KeyError (missing : list string)
| TypeError
| ValueError
| ZeroDivisionError
| IndexError
| ReError
| RequestValidationError.

Inductive result (A : Type) : Type :=
| Ok (a : A)
| Raise (e : exn).

Arguments Ok {A} a.
Arguments Raise {A} e.

Definition bind {A B : Type} (m : result A) (k : A -> result B) : result B :=
  match m with
  | Ok a => k a
  | Raise e => Raise e
  end.

Notation "x <- m ;; k" := (bind m (fun x => k))
  (at level 61, m at next level, right associativity).

(** A Python loop or comprehension that visits [l] in order, may skip an
    element, and stops at the first exception. *)
Fixpoint collect {A B : Type} (f : A -> result (option B)) (l : list A)
  : result (list B) :=
  match l with
  | [] => Ok []
  | a :: l' =>
      o <- f a ;;
      tl <- collect f l' ;;
      Ok (match o with Some b => b :: tl | None => tl end)
  end.

Fixpoint mapM {A B : Type} (f : A -> result B) (l : list A) : result (list B) :=
  match l with
  | [] => Ok []
  | a :: l' => b <- f a ;; tl <- mapM f l' ;; Ok (b :: tl)
  end.

(** ** Python built-ins *)

Definition len {A : Type} (l : list A) : Z := Z.of_nat (List.length l).

(** [range(n)]: empty when [n <= 0]. *)
Definition range (n : Z) : list Z := map Z.of_nat (seq 0 (Z.to_nat n)).

(** [a / b] on integers: true division. *)
Definition truediv (a b : Z) : result Q :=
  if b =? 0 then Raise ZeroDivisionError else Ok (inject_Z a / inject_Z b)%Q.

(** [int(x)] on a float truncates toward zero. *)
Definition int_of_float (x : Q) : Z := Z.quot (Qnum x) (Zpos (Qden x)).

(** [math.ceil]. *)
Definition math_ceil (x : Q) : Z := Qceiling x.

(** [round(x)] on a float: the nearest integer, a tie going to the even
    neighbour. *)
Definition round_half_even (x : Q) : Z :=
  let f := Qfloor x in
  match (x - inject_Z f ?= 1 # 2)%Q with
  | Lt => f
  | Gt => f + 1
  | Eq => if Z.even f then f else f + 1
  end.

Definition py_round (x : Q) : Z := round_half_even x.

(** [round(x, nd)]: rounding at [nd] decimals. *)
Definition py_round_nd (x : Q) (nd : nat) : Q :=
  (inject_Z (round_half_even (x * inject_Z (10 ^ Z.of_nat nd)))
   / inject_Z (10 ^ Z.of_nat nd))%Q.

(** [round(x, nd)] on a float that may be NaN. *)
Definition round_float (x : option Q) (nd : nat) : option Q :=
  option_map (fun q => py_round_nd q nd) x.

(** [_nan]: JSON-safe value of a float.  NaN and [None] are both [None] here,
    so the function is the identity on the model. *)
Definition _nan {A : Type} (v : option A) : option A := v.

Definition Qltb (x y : Q) : bool := negb (Qle_bool y x).

(** [str.strip()] is non-empty: some character is not white space. *)
Definition is_space (c : ascii) : bool :=
  let n := nat_of_ascii c in
  ((9 <=? n) && (n <=? 13) || (28 <=? n) && (n <=? 32))%nat.

Fixpoint strip_is_empty (s : string) : bool :=
  match s with
  | EmptyString => true
  | String c s' => is_space c && strip_is_empty s'
  end.

(** Insertion sort, inserting from the right: an element goes in front of the
    first element it is not above, so equal elements keep their order. *)
Fixpoint insert_by {A : Type} (leb : A -> A -> bool) (x : A) (l : list A)
  : list A :=
  match l with
  | [] => [x]
  | y :: l' => if leb x y then x :: l else y :: insert_by leb x l'
  end.

Definition isort {A : Type} (leb : A -> A -> bool) (l : list A) : list A :=
  fold_right (insert_by leb) [] l.

(** [sorted(l, key=...)]: Python's sort is stable. *)
Definition sorted {A : Type} (key : A -> Z) (l : list A) : list A :=
  isort (fun x y => key x <=? key y) l.

(** ** The table *)

Record Row : Type := {
  PassengerId : option Z;
  Survived : option Z;
  Pclass : option Z;
  Name : option string;
  Sex : option string;
  Age : option Q;
  Fare : option Q;
  Boarded : option string;
  Embarked : option string;
  Hometown : option string;
  Destination : option string;
  Lifeboat : option string
}.

Record DataFrame : Type := {
  columns : list string;
  rows : list Row
}.

(** A column: its name in the frame and how a row stores it. *)
Record column (A : Type) : Type := {
  col_name : string;
  col_of : Row -> option A
}.

Arguments col_name {A} c.
Arguments col_of {A} c r.

Definition cPassengerId : column Z := {| col_name := "PassengerId"; col_of := PassengerId |}.
Definition cSurvived : column Z := {| col_name := "Survived"; col_of := Survived |}.
Definition cPclass : column Z := {| col_name := "Pclass"; col_of := Pclass |}.
Definition cName : column string := {| col_name := "Name"; col_of := Name |}.
Definition cSex : column string := {| col_name := "Sex"; col_of := Sex |}.
Definition cAge : column Q := {| col_name := "Age"; col_of := Age |}.
Definition cFare : column Q := {| col_name := "Fare"; col_of := Fare |}.
Definition cBoarded : column string := {| col_name := "Boarded"; col_of := Boarded |}.
Definition cEmbarked : column string := {| col_name := "Embarked"; col_of := Embarked |}.
Definition cHometown : column string := {| col_name := "Hometown"; col_of := Hometown |}.
Definition cDestination : column string := {| col_name := "Destination"; col_of := Destination |}.
Definition cLifeboat : column string := {| col_name := "Lifeboat"; col_of := Lifeboat |}.

(** [c in df.columns] *)
Definition has_column (df : DataFrame) (c : string) : bool :=
  existsb (String.eqb c) (columns df).

(** [df[c]]: the column as a Series, [KeyError] when it is absent. *)
Definition getitem {A : Type} (df : DataFrame) (c : column A)
  : result (Row -> option A) :=
  if has_column df (col_name c) then Ok (col_of c)
  else Raise (KeyError [col_name c]).

(** [df[[c1; ...; cn]]]: [KeyError] naming every absent column. *)
Definition getitems (df : DataFrame) (cs : list string) : result DataFrame :=
  match filter (fun c => negb (has_column df c)) cs with
  | [] => Ok {| columns := cs; rows := rows df |}
  | missing => Raise (KeyError missing)
  end.

(** [df[mask]] with a nullable boolean mask: a missing entry selects
    nothing. *)
Definition is_true (b : option bool) : bool :=
  match b with Some true => true | _ => false end.

Definition loc (df : DataFrame) (mask : Row -> option bool) : DataFrame :=
  {| columns := columns df; rows := filter (fun r => is_true (mask r)) (rows df) |}.

(** [s == v] on a nullable integer Series: missing where [s] is. *)
Definition eq_int (s : Row -> option Z) (v : Z) (r : Row) : option bool :=
  option_map (fun x => x =? v) (s r).

(** [s == v] on an object Series: a missing entry compares false. *)
Definition eq_str (s : Row -> option string) (v : string) (r : Row) : option bool :=
  Some (match s r with Some x => String.eqb x v | None => false end).

(** [df.dropna(subset=[c])] *)
Definition notna {A : Type} (v : option A) : bool :=
  match v with Some _ => true | None => false end.

Definition dropna {A : Type} (df : DataFrame) (c : column A) : DataFrame :=
  {| columns := columns df; rows := filter (fun r => notna (col_of c r)) (rows df) |}.

(** Reductions skip missing entries. *)
Fixpoint somes {A : Type} (l : list (option A)) : list A :=
  match l with
  | [] => []
  | Some a :: l' => a :: somes l'
  | None :: l' => somes l'
  end.

Definition values {A : Type} (df : DataFrame) (s : Row -> option A) : list A :=
  somes (map s (rows df)).

Definition Zsum (l : list Z) : Z := fold_right Z.add 0 l.
Definition Qsum (l : list Q) : Q := fold_right Qplus 0%Q l.

(** [s.sum()] on a nullable integer Series: [0] when nothing is present. *)
Definition sum_int (df : DataFrame) (s : Row -> option Z) : Z :=
  Zsum (values df s).

(** [s.mean()] on a nullable integer Series: [pd.NA] when nothing is
    present. *)
Definition mean_int (df : DataFrame) (s : Row -> option Z) : option Q :=
  match values df s with
  | [] => None
  | vs => Some (inject_Z (Zsum vs) / inject_Z (len vs))%Q
  end.

(** [s.mean()] on a float Series: NaN when nothing is present. *)
Definition mean_float (df : DataFrame) (s : Row -> option Q) : option Q :=
  match values df s with
  | [] => None
  | vs => Some (Qsum vs / inject_Z (len vs))%Q
  end.

(** [s.max()] on a float Series: NaN when nothing is present. *)
Definition Qmax (x y : Q) : Q := if Qle_bool x y then y else x.

Definition max_float (df : DataFrame) (s : Row -> option Q) : option Q :=
  match values df s with
  | [] => None
  | v :: vs => Some (fold_left Qmax vs v)
  end.

(** [round(m * 100)] where [m] is the mean of a nullable integer Series:
    [pd.NA] has no [__round__], so rounding a missing mean raises. *)
Definition round_pct (m : option Q) : result Z :=
  match m with
  | Some q => Ok (py_round (q * 100))
  | None => Raise TypeError
  end.

(** ** [/api/stats] *)

Record Stats : Type := {
  total : Z;
  survivors : Z;
  lost : Z;
  surv_rate : Q;
  avg_age : option Q;
  avg_fare : option Q;
  max_fare : option Q
}.

Definition stats (df : DataFrame) : result Stats :=
  let total := len (rows df) in
  s <- getitem df cSurvived ;;
  let surv := sum_int df s in
  rate <- (if total =? 0 then Ok 0%Q
           else q <- truediv surv total ;; Ok (py_round_nd (q * 100) 1)) ;;
  Ok {| total := total;
        survivors := surv;
        lost := total - surv;
        surv_rate := rate;
        avg_age := if has_column df "Age"
                   then _nan (round_float (mean_float df Age) 1) else None;
        avg_fare := if has_column df "Fare"
                    then _nan (round_float (mean_float df Fare) 2) else None;
        max_fare := if has_column df "Fare"
                    then _nan (round_float (max_float df Fare) 2) else None |}.

(** ** [/api/by-class] *)

Record ClassEntry : Type := {
  ce_class : Z;
  ce_label : string;
  ce_total : Z;
  ce_survived : Z;
  ce_pct : Z
}.

Definition by_class_step (df : DataFrame) (cl : Z * string)
  : result (option ClassEntry) :=
  let '(cls, label) := cl in
  pc <- getitem df cPclass ;;
  let sub := loc df (eq_int pc cls) in
  if len (rows sub) =? 0 then Ok None
  else
    s <- getitem sub cSurvived ;;
    pct <- round_pct (mean_int sub s) ;;
    Ok (Some {| ce_class := cls; ce_label := label; ce_total := len (rows sub);
                ce_survived := sum_int sub s; ce_pct := pct |}).

Definition by_class (df : DataFrame) : result (list ClassEntry) :=
  collect (by_class_step df) [(1, "1st Class"); (2, "2nd Class"); (3, "3rd Class")]%string.

(** ** [/api/by-gender] *)

Record GenderEntry : Type := {
  ge_sex : string;
  ge_label : string;
  ge_survived : Z;
  ge_lost : Z
}.

Definition by_gender_step (df : DataFrame) (sl : string * string)
  : result (option GenderEntry) :=
  let '(sex, label) := sl in
  sx <- getitem df cSex ;;
  let sub := loc df (eq_str sx sex) in
  if len (rows sub) =? 0 then Ok None
  else
    sv <- getitem sub cSurvived ;;
    let s := sum_int sub sv in
    Ok (Some {| ge_sex := sex; ge_label := label; ge_survived := s;
                ge_lost := len (rows sub) - s |}).

Definition by_gender (df : DataFrame) : result (list GenderEntry) :=
  collect (by_gender_step df) [("female", "Female"); ("male", "Male")]%string.

(** ** [/api/by-port] *)

Definition _port_col (df : DataFrame) : column string :=
  if has_column df "Boarded" then cBoarded else cEmbarked.

(** [df.groupby(col)]: one group per distinct present key, keys ascending. *)
Definition group_keys (vs : list string) : list string :=
  isort String.leb (nodup string_dec vs).

Definition groupby (df : DataFrame) (c : column string)
  : list (string * DataFrame) :=
  map (fun k => (k, loc df (eq_str (col_of c) k)))
      (group_keys (values df (col_of c))).

Record PortEntry : Type := {
  port : string;
  count : Z;
  pct : Z
}.

Definition by_port_step (total : Z) (pg : string * DataFrame)
  : result (option PortEntry) :=
  let '(p, g) := pg in
  if strip_is_empty p then Ok None
  else
    q <- truediv (len (rows g)) total ;;
    Ok (Some {| port := p; count := len (rows g); pct := py_round (q * 100) |}).

Definition by_port (df : DataFrame) : result (list PortEntry) :=
  let col := _port_col df in
  if negb (has_column df (col_name col)) then Ok []
  else
    let total := len (rows df) in
    out <- collect (by_port_step total) (groupby df col) ;;
    Ok (sorted (fun x => - count x) out).

(** ** [/api/by-age-group] *)

Definition bins : list Z := [0; 12; 18; 35; 60; 120].

Definition labels : list string :=
  ["Child (0–12)"; "Teen (13–18)"; "Young Adult (19–35)"; "Adult (36–60)";
   "Senior (61+)"]%string.

(** [pd.cut(x, bins, labels)] with its defaults [right=True],
    [include_lowest=False]: the label of the interval [(lo, hi]] holding [x],
    missing when [x] is outside every interval. *)
Fixpoint cut_from (lo : Z) (edges : list Z) (labs : list string) (x : Q)
  : option string :=
  match edges, labs with
  | hi :: edges', l :: labs' =>
      if Qltb (inject_Z lo) x && Qle_bool x (inject_Z hi) then Some l
      else cut_from hi edges' labs' x
  | _, _ => None
  end.

Definition cut (x : Q) (bins : list Z) (labs : list string) : option string :=
  match bins with
  | lo :: edges => cut_from lo edges labs x
  | [] => None
  end.

Record AgeEntry : Type := {
  ae_group : string;
  ae_total : Z;
  ae_survived : Z;
  ae_pct : Z
}.

Definition grp (r : Row) : option string :=
  match Age r with
  | Some a => cut a bins labels
  | None => None
  end.

Definition by_age_group_step (d2 : DataFrame) (l : string)
  : result (option AgeEntry) :=
  let sub := loc d2 (eq_str grp l) in
  if len (rows sub) =? 0 then Ok None
  else
    s <- getitem sub cSurvived ;;
    pct <- round_pct (mean_int sub s) ;;
    Ok (Some {| ae_group := l; ae_total := len (rows sub);
                ae_survived := sum_int sub s; ae_pct := pct |}).

Definition by_age_group (df : DataFrame) : result (list AgeEntry) :=
  if negb (has_column df "Age") then Ok []
  else
    let d1 := dropna df cAge in
    let d2 := {| columns := columns d1 ++ ["grp"%string]; rows := rows d1 |} in
    collect (by_age_group_step d2) labels.

(** ** Positional indexing *)

(** [l.iloc[[i1; ...; ik]]]: a negative position counts from the end, a
    position outside the frame raises. *)
Definition iloc_at {A : Type} (l : list A) (i : Z) : result A :=
  let j := if i <? 0 then len l + i else i in
  if j <? 0 then Raise IndexError
  else match nth_error l (Z.to_nat j) with
       | Some a => Ok a
       | None => Raise IndexError
       end.

Definition iloc_list {A : Type} (l : list A) (idx : list Z) : result (list A) :=
  mapM (iloc_at l) idx.

(** [l.iloc[a:b]]: bounds are clipped to the frame, a negative bound counts
    from the end. *)
Definition slice_bound {A : Type} (l : list A) (i : Z) : Z :=
  if i <? 0 then Z.max 0 (len l + i) else Z.min i (len l).

Definition iloc_slice {A : Type} (l : list A) (a b : Z) : list A :=
  let a' := slice_bound l a in
  let b' := slice_bound l b in
  firstn (Z.to_nat (b' - a')) (skipn (Z.to_nat a') l).

(** Kleene conjunction of nullable booleans ([mask &= ...]). *)
Definition kand (a b : option bool) : option bool :=
  match a, b with
  | Some false, _ | _, Some false => Some false
  | Some true, Some true => Some true
  | _, _ => None
  end.

Record Point : Type := {
  pt_fare : option Q;
  pt_survived : option Z;
  pt_class : option Z
}.

Definition point (r : Row) : Point :=
  {| pt_fare := round_float (Fare r) 2;
     pt_survived := Survived r;
     pt_class := Pclass r |}.

Record DisplayRow : Type := {
  d_id : option Z;
  d_name : option string;
  d_sex : option string;
  d_age : option Q;
  d_cls : option Z;
  d_boarded : option string;
  d_dest : option string;
  d_lifeboat : option string;
  d_fare : option Q;
  d_survived : option Z;
  d_hometown : option string
}.

Record Page : Type := {
  pg_total : Z;
  pg_page : Z;
  pg_per_page : Z;
  pg_total_pages : Z;
  pg_rows : list DisplayRow
}.

(** [r.get(c, default)] on a row of [df]: the default only when the column is
    absent; a missing cell is returned as it is. *)
Definition row_get {A : Type} (df : DataFrame) (c : column A) (r : Row)
  (default : option A) : option A :=
  if has_column df (col_name c) then col_of c r else default.

(** The local helper [g] of [passengers]. *)
Definition g (df : DataFrame) (c : column string) (r : Row) : option string :=
  if has_column df (col_name c) && notna (row_get df c r None)
  then _nan (col_of c r) else None.

Definition display (df : DataFrame) (r : Row) : DisplayRow :=
  {| d_id := row_get df cPassengerId r None;
     d_name := row_get df cName r (Some "Unknown"%string);
     d_sex := row_get df cSex r (Some ""%string);
     d_age := _nan (row_get df cAge r None);
     d_cls := _nan (row_get df cPclass r None);
     d_boarded := g df (_port_col df) r;
     d_dest := g df cDestination r;
     d_lifeboat := g df cLifeboat r;
     d_fare := if notna (row_get df cFare r None)
               then round_float (Fare r) 2 else None;
     d_survived := if notna (row_get df cSurvived r None)
                   then Survived r else None;
     d_hometown := g df cHometown r |}.

(** ** Routes that sort: [/api/heatmap] and [/api/passengers]

    The library functions these routes call are parameters of the section:
    [DataFrame.sort_values] (pandas sorts with an unstable quicksort by
    default, so the order of equal keys is the library's choice),
    [str.lower], the regular-expression search behind [Series.str.contains]
    ([None] for a pattern that does not compile) and [int] on a string
    ([None] for a string that is not a number). *)

Section Routes.

Variable sort_values : string -> bool -> list Row -> list Row.
Variable str_lower : string -> string.
Variable re_search : string -> option (string -> bool).
Variable py_int : string -> option Z.

Definition sort_frame (df : DataFrame) (by_ : string) (ascending : bool)
  : DataFrame :=
  {| columns := columns df; rows := sort_values by_ ascending (rows df) |}.

(** The positions [int(i*len(hm)/n) for i in range(n)]. *)
Definition sample_index (length_hm n : Z) (i : Z) : result Z :=
  q <- truediv (i * length_hm) n ;; Ok (int_of_float q).

Definition heatmap (n : Z) (df : DataFrame) : result (list Point) :=
  if n >? 500 then Raise RequestValidationError
  else
    sel <- getitems df ["Fare"; "Survived"; "Pclass"]%string ;;
    let hm := sort_frame (dropna sel cFare) "Fare" true in
    picked <- (if len (rows hm) >? n
               then idx <- mapM (sample_index (len (rows hm)) n) (range n) ;;
                    iloc_list (rows hm) idx
               else Ok (rows hm)) ;;
    Ok (map point picked).

(** [df[c].str.lower().str.contains(ql, na=False)] *)
Definition str_contains (s : Row -> option string) (pat : string)
  : result (Row -> bool) :=
  match re_search pat with
  | Some f => Ok (fun r => match s r with Some x => f x | None => false end)
  | None => Raise ReError
  end.

Definition lower_series (s : Row -> option string) (r : Row) : option string :=
  option_map str_lower (s r).

Fixpoint text_mask (df : DataFrame) (ql : string) (cs : list (column string))
  (tm : Row -> bool) : result (Row -> bool) :=
  match cs with
  | [] => Ok tm
  | c :: cs' =>
      if has_column df (col_name c)
      then s <- getitem df c ;;
           m <- str_contains (lower_series s) ql ;;
           text_mask df ql cs' (fun r => tm r || m r)
      else text_mask df ql cs' tm
  end.

(** The filter of [passengers]: the mask built from [q], [survived] and
    [cls]. *)
Definition row_mask (df : DataFrame) (q survived cls : string)
  : result (Row -> option bool) :=
  let mask0 := fun _ : Row => Some true in
  mask1 <- (if String.eqb q "" then Ok mask0
            else tm <- text_mask df (str_lower q)
                         [cName; cHometown; cDestination] (fun _ => false) ;;
                 Ok (fun r => kand (mask0 r) (Some (tm r)))) ;;
  mask2 <- (if String.eqb survived "survived"
            then s <- getitem df cSurvived ;;
                 Ok (fun r => kand (mask1 r) (eq_int s 1 r))
            else if String.eqb survived "lost"
            then s <- getitem df cSurvived ;;
                 Ok (fun r => kand (mask1 r) (eq_int s 0 r))
            else Ok mask1) ;;
  if String.eqb cls "all" then Ok mask2
  else
    s <- getitem df cPclass ;;
    v <- match py_int cls with Some v => Ok v | None => Raise ValueError end ;;
    Ok (fun r => kand (mask2 r) (eq_int s v r)).

(** [filtered] after the optional sort. *)
Definition ordered (df : DataFrame) (mask : Row -> option bool)
  (sort_by sort_dir : string) : list Row :=
  let filtered := loc df mask in
  if has_column filtered sort_by
  then sort_values sort_by (String.eqb sort_dir "asc") (rows filtered)
  else rows filtered.

Definition passengers (q survived cls : string) (page per_page : Z)
  (sort_by sort_dir : string) (df : DataFrame) : result Page :=
  if (page <? 1) || (per_page <? 1) || (per_page >? 200)
  then Raise RequestValidationError
  else
    mask <- row_mask df q survived cls ;;
    let filtered := ordered df mask sort_by sort_dir in
    let total := len filtered in
    quo <- truediv total per_page ;;
    let tp := Z.max 1 (math_ceil quo) in
    let page := Z.min page tp in
    let sl := iloc_slice filtered ((page - 1) * per_page) (page * per_page) in
    Ok {| pg_total := total; pg_page := page; pg_per_page := per_page;
          pg_total_pages := tp; pg_rows := map (display df) sl |}.

(** The row slices of pages [1..tp], in page order. *)
Definition page_rows (q survived cls : string) (per_page : Z)
  (sort_by sort_dir : string) (df : DataFrame) (p : Z)
  : result (list DisplayRow) :=
  r <- passengers q survived cls p per_page sort_by sort_dir df ;;
  Ok (pg_rows r).

Definition all_pages (q survived cls : string) (per_page : Z)
  (sort_by sort_dir : string) (df : DataFrame) (tp : Z)
  : result (list (list DisplayRow)) :=
  mapM (page_rows q survived cls per_page sort_by sort_dir df)
       (map (fun i => i + 1) (range tp)).

End Routes.

(** ** The table cache: [get_df] under concurrent callers

    The routes are plain [def] functions, which the server runs on worker
    threads, so several calls of [get_df] can be in flight at once.  A call
    is the sequence: read [_cache] and return it if set (lines 28-29); call
    [_load()] (line 30, right-hand side); store the result in [_cache]
    (line 30); read [_cache] again and return it (line 31).  The threads
    interleave between these steps. *)

Module Cache.

Section GetDf.

(** The table [_load()] returns (the data source is available). *)
Variable source : DataFrame.

Inductive pc : Type :=
| ReadCache
| CallLoad
| Store (t : DataFrame)
| Return
| Done (t : DataFrame).

Record world : Type := {
  cache : option DataFrame;
  threads : list pc;
  loads : nat
}.

Definition init (n : nat) : world :=
  {| cache := None; threads := repeat ReadCache n; loads := 0 |}.

(** One step of one call: the new cache, the call's next point and whether
    the step ran [_load]. *)
Definition get_df_step (c : option DataFrame) (p : pc)
  : option (option DataFrame * pc * nat) :=
  match p with
  | ReadCache =>
      match c with
      | Some t => Some (c, Done t, 0%nat)
      | None => Some (c, CallLoad, 0%nat)
      end
  | CallLoad => Some (c, Store source, 1%nat)
  | Store t => Some (Some t, Return, 0%nat)
  | Return =>
      match c with
      | Some t => Some (c, Done t, 0%nat)
      | None => None
      end
  | Done _ => None
  end.

Fixpoint set_nth {A : Type} (i : nat) (x : A) (l : list A) : list A :=
  match l, i with
  | [], _ => []
  | _ :: l', O => x :: l'
  | y :: l', S i' => y :: set_nth i' x l'
  end.

(** Thread [i] takes its next step. *)
Definition step (i : nat) (w : world) : option world :=
  match nth_error (threads w) i with
  | None => None
  | Some p =>
      match get_df_step (cache w) p with
      | None => None
      | Some (c, p', k) =>
          Some {| cache := c; threads := set_nth i p' (threads w);
                  loads := (loads w + k)%nat |}
      end
  end.

(** A schedule names the thread that moves at each step. *)
Fixpoint run (sched : list nat) (w : world) : option world :=
  match sched with
  | [] => Some w
  | i :: sched' =>
      match step i w with
      | Some w' => run sched' w'
      | None => None
      end
  end.

End GetDf.

End Cache.

(** ** Library functions used to run the routes

    Instances of the section parameters: a stable sort on the column named
    by [by_], ASCII lower-casing, literal substring search and decimal
    [int]. *)

Inductive key : Type :=
| KNum (q : Q)
| KStr (s : string).

Definition num_key (v : option Z) : option key :=
  option_map (fun z => KNum (inject_Z z)) v.

Definition sort_key (by_ : string) (r : Row) : option key :=
  if String.eqb by_ "PassengerId" then num_key (PassengerId r)
  else if String.eqb by_ "Survived" then num_key (Survived r)
  else if String.eqb by_ "Pclass" then num_key (Pclass r)
  else if String.eqb by_ "Age" then option_map KNum (Age r)
  else if String.eqb by_ "Fare" then option_map KNum (Fare r)
  else if String.eqb by_ "Name" then option_map KStr (Name r)
  else if String.eqb by_ "Sex" then option_map KStr (Sex r)
  else if String.eqb by_ "Boarded" then option_map KStr (Boarded r)
  else if String.eqb by_ "Embarked" then option_map KStr (Embarked r)
  else if String.eqb by_ "Hometown" then option_map KStr (Hometown r)
  else if String.eqb by_ "Destination" then option_map KStr (Destination r)
  else if String.eqb by_ "Lifeboat" then option_map KStr (Lifeboat r)
  else None.

Definition key_leb (a b : key) : bool :=
  match a, b with
  | KNum x, KNum y => Qle_bool x y
  | KStr x, KStr y => String.leb x y
  | _, _ => true
  end.

(** Missing keys sort last in both directions. *)
Definition row_leb (by_ : string) (ascending : bool) (r1 r2 : Row) : bool :=
  match sort_key by_ r1, sort_key by_ r2 with
  | _, None => true
  | None, Some _ => false
  | Some a, Some b => if ascending then key_leb a b else key_leb b a
  end.

Definition stable_sort_values (by_ : string) (ascending : bool) (l : list Row)
  : list Row :=
  isort (row_leb by_ ascending) l.

Definition ascii_lower (c : ascii) : ascii :=
  let n := nat_of_ascii c in
  if ((65 <=? n) && (n <=? 90))%nat then ascii_of_nat (n + 32) else c.

Fixpoint lower_ascii (s : string) : string :=
  match s with
  | EmptyString => EmptyString
  | String c s' => String (ascii_lower c) (lower_ascii s')
  end.

Definition literal_search (pat : string) : option (string -> bool) :=
  Some (fun s => match index 0 pat s with Some _ => true | None => false end).

Fixpoint digits_value (acc : Z) (s : string) : option Z :=
  match s with
  | EmptyString => Some acc
  | String c s' =>
      let n := nat_of_ascii c in
      if ((48 <=? n) && (n <=? 57))%nat
      then digits_value (10 * acc + Z.of_nat (n - 48)) s'
      else None
  end.

Definition int_of_digits (s : string) : option Z :=
  match s with
  | EmptyString => None
  | _ => digits_value 0 s
  end.

(** ** Vocabulary of the statements *)

(** The row is counted in one of the three classes of [by_class]. *)
Definition in_some_class (r : Row) : bool :=
  is_true (eq_int Pclass 1 r) || is_true (eq_int Pclass 2 r)
  || is_true (eq_int Pclass 3 r).

(** The row is counted in one of the two groups of [by_gender]. *)
Definition in_some_gender (r : Row) : bool :=
  is_true (eq_str Sex "female" r) || is_true (eq_str Sex "male" r).

(** [pct] is an integer nearest to [100 * part / whole]. *)
Definition nearest_percent (part whole pct : Z) : Prop :=
  200 * part - whole <= 2 * whole * pct <= 200 * part + whole.

(** The row has key [k] in the Series [f]. *)
Definition holds (f : Row -> option string) (k : string) (r : Row) : bool :=
  is_true (eq_str f k r).

(** The boarding port of a row and the number of rows boarded at a port. *)
Definition port_of (df : DataFrame) (r : Row) : option string :=
  col_of (_port_col df) r.

Definition port_count (df : DataFrame) (p : string) : Z :=
  len (filter (fun r => is_true (eq_str (port_of df) p r)) (rows df)).

(** What [by_port] reports for one port, before the final sort. *)
Definition port_entry (df : DataFrame) (p : string) : option PortEntry :=
  if strip_is_empty p then None
  else Some {| port := p; count := port_count df p;
               pct := py_round (inject_Z (port_count df p)
                                / inject_Z (len (rows df)) * 100) |}.

(** The age intervals of [by_age_group] as [pd.cut] reads [bins]: open on the
    left, closed on the right. *)
Definition age_in (lo hi : Z) (r : Row) : bool :=
  match Age r with
  | Some a => Qltb (inject_Z lo) a && Qle_bool a (inject_Z hi)
  | None => false
  end.

Definition age_buckets : list (string * (Z * Z)) :=
  [("Child (0–12)", (0, 12)); ("Teen (13–18)", (12, 18));
   ("Young Adult (19–35)", (18, 35)); ("Adult (36–60)", (35, 60));
   ("Senior (61+)", (60, 120))]%string.

(** The rows of a bucket that survived, and those whose outcome is known. *)
Definition is_survivor (r : Row) : bool :=
  match Survived r with Some 1 => true | _ => false end.

Definition survived_count (l : list Row) : Z := len (filter is_survivor l).

Definition known_count (l : list Row) : Z :=
  len (filter (fun r => notna (Survived r)) l).

(** [Survived] is a 0/1 flag where it is present. *)
Definition survived_flag (r : Row) : Prop :=
  Survived r = None \/ Survived r = Some 0 \/ Survived r = Some 1.


(** Every bucket that has a row has a row whose outcome is known. *)
Definition outcome_known_per_bucket (df : DataFrame) : Prop :=
  forall l lo hi,
    In (l, (lo, hi)) age_buckets ->
    filter (age_in lo hi) (rows df) <> [] ->
    0 < known_count (filter (age_in lo hi) (rows df)).


(** The frame [d2] of [by_age_group]: rows with an age, plus the column
    ["grp"]. *)
Definition aged (df : DataFrame) : DataFrame :=
  {| columns := columns (dropna df cAge) ++ ["grp"%string];
     rows := rows (dropna df cAge) |}.


(** What [sort_values("Fare")] promises: rows in non-decreasing fare, a
    missing fare after every present one. *)
Definition fare_le (r1 r2 : Row) : Prop :=
  match Fare r1, Fare r2 with
  | Some a, Some b => (a <= b)%Q
  | _, None => True
  | None, Some _ => False
  end.

(** The rows that have a fare. *)
Definition with_fare (df : DataFrame) : list Row :=
  filter (fun r => notna (Fare r)) (rows df).

(** Every point has a fare and the fares never decrease along the list. *)
Definition point_le (a b : Point) : Prop :=
  match pt_fare a, pt_fare b with
  | Some x, Some y => (x <= y)%Q
  | _, _ => False
  end.

Definition fares_nondecreasing (pts : list Point) : Prop :=
  Sorted point_le pts /\ Forall (fun p => pt_fare p <> None) pts.




(** ** Sample tables *)

Definition passenger (id : Z) (surv cls : option Z) (name sex : option string)
  (age fare : option Q) (boarded : option string) : Row :=
  {| PassengerId := Some id; Survived := surv; Pclass := cls; Name := name;
     Sex := sex; Age := age; Fare := fare; Boarded := boarded;
     Embarked := None; Hometown := None; Destination := None;
     Lifeboat := None |}.

Definition all_columns : list string :=
  ["PassengerId"; "Survived"; "Pclass"; "Name"; "Sex"; "Age"; "Fare";
   "Boarded"; "Hometown"; "Destination"; "Lifeboat"]%string.

(** A header-only table. *)
Definition empty_table : DataFrame := {| columns := all_columns; rows := [] |}.

(** Three passengers, classes 1, 1, 3, survived 1, 0, 1. *)
Definition three_passengers : DataFrame :=
  {| columns := all_columns;
     rows := [passenger 1 (Some 1) (Some 1) (Some "Allen"%string)
                (Some "female"%string) (Some 29%Q) (Some 211.3375%Q)
                (Some "Southampton"%string);
              passenger 2 (Some 0) (Some 1) (Some "Allison"%string)
                (Some "male"%string) (Some 30%Q) (Some 151.55%Q)
                (Some "Southampton"%string);
              passenger 3 (Some 1) (Some 3) (Some "Abbott"%string)
                (Some "female"%string) (Some 35%Q) (Some 20.25%Q)
                (Some "Cherbourg"%string)] |}.

(** A table without the ["Survived"] column whose only row has neither a
    class nor a sex. *)
Definition unlabelled_row : DataFrame :=
  {| columns := ["PassengerId"; "Pclass"; "Sex"]%string;
     rows := [passenger 1 None None None None None None None] |}.

(** A passenger whose name and sex cells are empty. *)
Definition anonymous_passenger : DataFrame :=
  {| columns := all_columns;
     rows := [passenger 1 (Some 1) (Some 3) None None (Some 30%Q)
                (Some 7.25%Q) (Some "Southampton"%string)] |}.


(** Two passengers of the same age bucket, one with no recorded outcome. *)
Definition one_unknown_outcome : DataFrame :=
  {| columns := all_columns;
     rows := [passenger 1 (Some 1) (Some 1) (Some "Allen"%string)
                (Some "female"%string) (Some 29%Q) (Some 211.3375%Q)
                (Some "Southampton"%string);
              passenger 2 None (Some 3) (Some "Abbing"%string)
                (Some "male"%string) (Some 30%Q) (Some 7.55%Q)
                (Some "Southampton"%string)] |}.

(** One passenger with an age and no recorded outcome. *)
Definition outcome_unknown : DataFrame :=
  {| columns := all_columns;
     rows := [passenger 2 None (Some 3) (Some "Abbing"%string)
                (Some "male"%string) (Some 30%Q) (Some 7.55%Q)
                (Some "Southampton"%string)] |}.



(** The mask of the filter [survived = "survived"] with no query and no
    class. *)
Definition survived_mask (r : Row) : option bool :=
  kand (Some true) (eq_int Survived 1 r).



(** ** Groups, cleaning and serial calls: further definitions *)

(** [stats], [by_class], [by_gender]: the rows of a group and how their
    outcomes split. *)
Definition is_lost (r : Row) : bool :=
  match Survived r with Some 0 => true | _ => false end.

Definition lost_count (l : list Row) : Z := len (filter is_lost l).

Definition unknown_count (l : list Row) : Z :=
  len (filter (fun r => negb (notna (Survived r))) l).

Definition class_rows (df : DataFrame) (c : Z) : list Row :=
  filter (fun r => is_true (eq_int Pclass c r)) (rows df).

Definition sex_rows (df : DataFrame) (s : string) : list Row :=
  filter (fun r => is_true (eq_str Sex s r)) (rows df).

(** What a route reports on the outcomes of a group [sub] that has a row:
    the sum of the known outcomes and the rounded mean, which fails when no
    outcome is known. *)
Definition outcome_pct (sub : list Row) : result Z :=
  if known_count sub =? 0 then Raise TypeError
  else Ok (py_round (inject_Z (Zsum (somes (map Survived sub)))
                     / inject_Z (known_count sub) * 100)).

(** One step of [by_class] on a table that has both columns. *)
Definition class_outcome (df : DataFrame) (cl : Z * string)
  : result (option ClassEntry) :=
  let sub := class_rows df (fst cl) in
  if len sub =? 0 then Ok None
  else
    pct <- outcome_pct sub ;;
    Ok (Some {| ce_class := fst cl; ce_label := snd cl; ce_total := len sub;
                ce_survived := Zsum (somes (map Survived sub));
                ce_pct := pct |}).

Definition class_labels : list (Z * string) :=
  [(1, "1st Class"); (2, "2nd Class"); (3, "3rd Class")]%string.

(** One step of [by_age_group] on a table that has both columns. *)
Definition bucket_outcome (df : DataFrame) (b : string * (Z * Z))
  : result (option AgeEntry) :=
  let sub := filter (age_in (fst (snd b)) (snd (snd b))) (rows df) in
  if len sub =? 0 then Ok None
  else
    pct <- outcome_pct sub ;;
    Ok (Some {| ae_group := fst b; ae_total := len sub;
                ae_survived := Zsum (somes (map Survived sub));
                ae_pct := pct |}).

(** One step of [by_gender] on a table that has both columns. *)
Definition gender_outcome (df : DataFrame) (sl : string * string)
  : option GenderEntry :=
  let sub := sex_rows df (fst sl) in
  if len sub =? 0 then None
  else Some {| ge_sex := fst sl; ge_label := snd sl;
               ge_survived := Zsum (somes (map Survived sub));
               ge_lost := len sub - Zsum (somes (map Survived sub)) |}.

Definition gender_labels : list (string * string) :=
  [("female", "Female"); ("male", "Male")]%string.

(** Two first-class passengers with no recorded outcome and one third-class
    survivor. *)
Definition first_class_unknown : DataFrame :=
  {| columns := all_columns;
     rows := [passenger 1 None (Some 1) (Some "Astor"%string)
                (Some "male"%string) (Some 47%Q) (Some 227.525%Q)
                (Some "Cherbourg"%string);
              passenger 2 None (Some 1) (Some "Bird"%string)
                (Some "female"%string) (Some 29%Q) (Some 221.7792%Q)
                (Some "Southampton"%string);
              passenger 3 (Some 1) (Some 3) (Some "Abbott"%string)
                (Some "female"%string) (Some 35%Q) (Some 20.25%Q)
                (Some "Southampton"%string)] |}.

(** An infant recorded with age 0, a passenger recorded with age 121 and a
    passenger with no age, next to one adult. *)
Definition ages_off_range : DataFrame :=
  {| columns := all_columns;
     rows := [passenger 1 (Some 1) (Some 3) (Some "Dean"%string)
                (Some "female"%string) (Some 0%Q) (Some 20.575%Q)
                (Some "Southampton"%string);
              passenger 2 (Some 0) (Some 1) (Some "Old"%string)
                (Some "male"%string) (Some 121%Q) (Some 30%Q)
                (Some "Southampton"%string);
              passenger 3 (Some 0) (Some 2) (Some "Nye"%string)
                (Some "female"%string) None (Some 10.5%Q)
                (Some "Southampton"%string);
              passenger 4 (Some 1) (Some 2) (Some "Abelson"%string)
                (Some "female"%string) (Some 28%Q) (Some 24%Q)
                (Some "Cherbourg"%string)] |}.




(** A table with the numeric columns only. *)
Definition numbers_only : DataFrame :=
  {| columns := ["PassengerId"; "Survived"; "Pclass"; "Age"; "Fare"]%string;
     rows := rows three_passengers |}.

(** A pattern that does not compile. *)
Definition no_pattern (pat : string) : option (string -> bool) := None.

(** ** [_clean]

    The columns of a [Row] are typed, so the two numeric loops of [_clean]
    ([pd.to_numeric] and [astype("Int64")]) leave a table as it is; what
    [_clean] changes is the port columns and the sex column.  [str.strip()]
    removes the white space of [is_space] at both ends. *)
Fixpoint lstrip (s : string) : string :=
  match s with
  | EmptyString => EmptyString
  | String c s' => if is_space c then lstrip s' else s
  end.

Fixpoint rstrip (s : string) : string :=
  match s with
  | EmptyString => EmptyString
  | String c s' =>
      match rstrip s' with
      | EmptyString => if is_space c then EmptyString else String c EmptyString
      | t => String c t
      end
  end.

Definition str_strip (s : string) : string := lstrip (rstrip s).

(** [port_map.get(k)] *)
Definition port_map (k : string) : option string :=
  if String.eqb k "S" then Some "Southampton"%string
  else if String.eqb k "C" then Some "Cherbourg"%string
  else if String.eqb k "Q" then Some "Queenstown"%string
  else None.

(** [lambda x: port_map.get(str(x).strip(), x) if pd.notna(x) else x] *)
Definition clean_port (x : option string) : option string :=
  match x with
  | Some s => Some (match port_map (str_strip s) with
                    | Some v => v
                    | None => s
                    end)
  | None => None
  end.

(** [df["Sex"].str.strip().str.lower()] *)
Definition clean_sex (x : option string) : option string :=
  option_map (fun s => lower_ascii (str_strip s)) x.

(** The row [_clean] writes for a row of [df]: a column is rewritten only
    when the table has it. *)
Definition clean_row (df : DataFrame) (r : Row) : Row :=
  {| PassengerId := PassengerId r;
     Survived := Survived r;
     Pclass := Pclass r;
     Name := Name r;
     Sex := if has_column df "Sex" then clean_sex (Sex r) else Sex r;
     Age := Age r;
     Fare := Fare r;
     Boarded := if has_column df "Boarded" then clean_port (Boarded r)
                else Boarded r;
     Embarked := if has_column df "Embarked" then clean_port (Embarked r)
                 else Embarked r;
     Hometown := Hometown r;
     Destination := Destination r;
     Lifeboat := Lifeboat r |}.

Definition _clean (df : DataFrame) : DataFrame :=
  {| columns := columns df; rows := map (clean_row df) (rows df) |}.

(** The rows whose port cell [_clean] turns into [p], and the rows whose
    sex cell it turns into [s]. *)
Definition boarded_as (df : DataFrame) (p : string) (r : Row) : bool :=
  match clean_port (port_of df r) with
  | Some v => String.eqb v p
  | None => false
  end.

Definition sex_as (s : string) (r : Row) : bool :=
  match clean_sex (Sex r) with
  | Some v => String.eqb v s
  | None => false
  end.

(** A table as it is read from the file: port codes and names, sexes in
    mixed case, white space around some cells. *)
Definition raw_table : DataFrame :=
  {| columns := all_columns;
     rows := [passenger 1 (Some 1) (Some 1) (Some "Allen"%string)
                (Some " Female"%string) (Some 29%Q) (Some 211.3375%Q)
                (Some "S"%string);
              passenger 2 (Some 0) (Some 1) (Some "Allison"%string)
                (Some "MALE "%string) (Some 30%Q) (Some 151.55%Q)
                (Some "Southampton"%string);
              passenger 3 (Some 1) (Some 3) (Some "Abbott"%string)
                (Some "female"%string) (Some 35%Q) (Some 20.25%Q)
                (Some " C "%string);
              passenger 4 (Some 0) (Some 3) (Some "Abelson"%string)
                None (Some 30%Q) (Some 24%Q)
                (Some " Southampton"%string)] |}.

(** [n] calls of [get_df] one after another: the first call runs its four
    steps, then each later call reads the cache. *)
Definition serial (n : nat) : list nat :=
  ([0; 0; 0; 0] ++ seq 1 (n - 1))%nat.

(** * Properties *)

(** ** The error monad and column access *)

Lemma has_column_In (df : DataFrame) (c : string) :
  has_column df c = true <-> In c (columns df).
Proof.
  unfold has_column. rewrite existsb_exists. split.
  - intros [x [Hin Heq]]. apply String.eqb_eq in Heq. now subst.
  - intros Hin. exists c. split; [assumption | apply String.eqb_refl].
Qed.

Lemma getitem_present {A : Type} (df : DataFrame) (c : column A) :
  has_column df (col_name c) = true -> getitem df c = Ok (col_of c).
Proof. intros H. unfold getitem. now rewrite H. Qed.

Lemma getitem_absent {A : Type} (df : DataFrame) (c : column A) :
  has_column df (col_name c) = false ->
  getitem df c = Raise (KeyError [col_name c]).
Proof. intros H. unfold getitem. now rewrite H. Qed.

Lemma has_column_loc (df : DataFrame) (m : Row -> option bool) (c : string) :
  has_column (loc df m) c = has_column df c.
Proof. reflexivity. Qed.

Lemma len_nonneg {A : Type} (l : list A) : 0 <= len l.
Proof. unfold len. lia. Qed.

Lemma len_zero_iff {A : Type} (l : list A) : len l = 0 <-> l = [].
Proof.
  unfold len. destruct l; simpl; split; intros H; try reflexivity;
    try discriminate; lia.
Qed.

Lemma len_filter_zero {A : Type} (f : A -> bool) (l : list A) :
  (len (filter f l) =? 0) = negb (existsb f l).
Proof.
  induction l as [| a l IH]; simpl; [reflexivity |].
  destruct (f a); simpl; [| exact IH].
  unfold len. simpl. destruct (Z.eqb_spec (Z.pos (Pos.of_succ_nat (List.length (filter f l)))) 0);
    [lia | reflexivity].
Qed.

Lemma existsb_orb {A : Type} (f g : A -> bool) (l : list A) :
  existsb (fun a => f a || g a) l = existsb f l || existsb g l.
Proof.
  induction l as [| a l IH]; simpl; [reflexivity |].
  rewrite IH. destruct (f a), (g a), (existsb f l), (existsb g l); reflexivity.
Qed.

Lemma truediv_nonzero (a b : Z) :
  b <> 0 -> truediv a b = Ok (inject_Z a / inject_Z b)%Q.
Proof.
  intros H. unfold truediv. destruct (Z.eqb_spec b 0); [contradiction | reflexivity].
Qed.

(** ** [/api/stats] *)

(** [stats] never divides by zero: the rate is computed only for a non-empty
    table. *)
Lemma stats_returns (df : DataFrame) :
  has_column df "Survived" = true -> exists s, stats df = Ok s.
Proof.
  intros H. unfold stats. rewrite (getitem_present df cSurvived H). simpl.
  destruct (Z.eqb_spec (len (rows df)) 0) as [E | E]; simpl.
  - eexists. reflexivity.
  - rewrite (truediv_nonzero _ _ E). simpl. eexists. reflexivity.
Qed.

(** C6.  For every table, the counts of [stats] satisfy
    survivors + lost = total.  [stats] returns counts exactly when the table
    has the ["Survived"] column; without it the route raises that
    [KeyError] and reports nothing. *)
Theorem stats_survivors_plus_lost (df : DataFrame) :
  match stats df with
  | Ok s => survivors s + lost s = total s /\ has_column df "Survived" = true
  | Raise e => e = KeyError ["Survived"%string] /\ has_column df "Survived" = false
  end.
Proof.
  unfold stats, getitem. simpl col_name.
  destruct (has_column df "Survived") eqn:H; simpl; [| now split].
  destruct (Z.eqb_spec (len (rows df)) 0) as [E | E]; simpl.
  - split; [lia | reflexivity].
  - rewrite (truediv_nonzero _ _ E). simpl. split; [lia | reflexivity].
Qed.

(** C7.  On an empty table [stats] returns zero counts, a zero survival rate
    (the division by [total] is not evaluated) and no averages. *)
Theorem stats_empty_table (df : DataFrame) :
  rows df = [] ->
  has_column df "Survived" = true ->
  stats df = Ok {| total := 0; survivors := 0; lost := 0; surv_rate := 0%Q;
                   avg_age := None; avg_fare := None; max_fare := None |}.
Proof.
  intros Hrows Hcol. unfold stats. rewrite (getitem_present df cSurvived Hcol).
  unfold sum_int, mean_float, max_float, values. rewrite Hrows. simpl.
  destruct (has_column df "Age"), (has_column df "Fare"); reflexivity.
Qed.

Lemma stats_empty_table_witness :
  stats empty_table
  = Ok {| total := 0; survivors := 0; lost := 0; surv_rate := 0%Q;
          avg_age := None; avg_fare := None; max_fare := None |}.
Proof. apply (stats_empty_table empty_table); reflexivity. Defined.

(** ** The routes that read ["Survived"] *)

Lemma by_class_step_no_survived (df : DataFrame) (cls : Z) (label : string) :
  has_column df "Pclass" = true ->
  has_column df "Survived" = false ->
  by_class_step df (cls, label)
  = if existsb (fun r => is_true (eq_int Pclass cls r)) (rows df)
    then Raise (KeyError ["Survived"%string]) else Ok None.
Proof.
  intros Hp Hs. unfold by_class_step.
  rewrite (getitem_present df cPclass Hp). simpl bind. simpl col_of.
  rewrite (getitem_absent (loc df (eq_int Pclass cls)) cSurvived Hs). simpl bind.
  change (rows (loc df (eq_int Pclass cls)))
    with (filter (fun r => is_true (eq_int Pclass cls r)) (rows df)).
  rewrite len_filter_zero.
  destruct (existsb _ (rows df)); reflexivity.
Qed.

Lemma by_gender_step_no_survived (df : DataFrame) (sex label : string) :
  has_column df "Sex" = true ->
  has_column df "Survived" = false ->
  by_gender_step df (sex, label)
  = if existsb (fun r => is_true (eq_str Sex sex r)) (rows df)
    then Raise (KeyError ["Survived"%string]) else Ok None.
Proof.
  intros Hp Hs. unfold by_gender_step.
  rewrite (getitem_present df cSex Hp). simpl bind. simpl col_of.
  rewrite (getitem_absent (loc df (eq_str Sex sex)) cSurvived Hs). simpl bind.
  change (rows (loc df (eq_str Sex sex)))
    with (filter (fun r => is_true (eq_str Sex sex r)) (rows df)).
  rewrite len_filter_zero.
  destruct (existsb _ (rows df)); reflexivity.
Qed.

(** C10, as the code has it.  On a table without the ["Survived"] column
    [stats] always raises.  [by_class] and [by_gender] read the column only
    for a group that has a row: they raise when some row falls in one of
    their groups (or when their own grouping column is absent too) and
    return the empty list otherwise. *)
Theorem survived_column_required (df : DataFrame) :
  has_column df "Survived" = false ->
  stats df = Raise (KeyError ["Survived"%string])
  /\ by_class df
     = (if has_column df "Pclass"
        then if existsb in_some_class (rows df)
             then Raise (KeyError ["Survived"%string]) else Ok []
        else Raise (KeyError ["Pclass"%string]))
  /\ by_gender df
     = (if has_column df "Sex"
        then if existsb in_some_gender (rows df)
             then Raise (KeyError ["Survived"%string]) else Ok []
        else Raise (KeyError ["Sex"%string])).
Proof.
  intros Hs. split; [| split].
  - unfold stats. now rewrite (getitem_absent df cSurvived Hs).
  - destruct (has_column df "Pclass") eqn:Hp.
    + unfold by_class, in_some_class. cbn [collect].
      rewrite !by_class_step_no_survived by assumption.
      rewrite !existsb_orb.
      destruct (existsb (fun r => is_true (eq_int Pclass 1 r)) (rows df)),
               (existsb (fun r => is_true (eq_int Pclass 2 r)) (rows df)),
               (existsb (fun r => is_true (eq_int Pclass 3 r)) (rows df));
        reflexivity.
    + unfold by_class. cbn [collect]. unfold by_class_step at 1.
      now rewrite (getitem_absent df cPclass Hp).
  - destruct (has_column df "Sex") eqn:Hp.
    + unfold by_gender, in_some_gender. cbn [collect].
      rewrite !by_gender_step_no_survived by assumption.
      rewrite !existsb_orb.
      destruct (existsb (fun r => is_true (eq_str Sex "female" r)) (rows df)),
               (existsb (fun r => is_true (eq_str Sex "male" r)) (rows df));
        reflexivity.
    + unfold by_gender. cbn [collect]. unfold by_gender_step at 1.
      now rewrite (getitem_absent df cSex Hp).
Qed.

Lemma survived_column_required_witness :
  stats unlabelled_row = Raise (KeyError ["Survived"%string])
  /\ by_class unlabelled_row = Ok []
  /\ by_gender unlabelled_row = Ok [].
Proof. apply (survived_column_required unlabelled_row). reflexivity. Defined.

(** C10, as stated, fails: a table without ["Survived"] on which [by_class]
    and [by_gender] return a result instead of raising. *)
Lemma survived_column_not_always_read :
  has_column unlabelled_row "Survived" = false
  /\ by_class unlabelled_row = Ok []
  /\ by_gender unlabelled_row = Ok [].
Proof. repeat split. Qed.

(** ** Lists: slices and chunks *)

Lemma firstn_plus {A : Type} (n m : nat) (l : list A) :
  firstn (n + m)%nat l = firstn n l ++ firstn m (skipn n l).
Proof.
  revert l. induction n as [| n IH]; intros l; simpl; [reflexivity |].
  destruct l as [| a l]; simpl.
  - now rewrite firstn_nil.
  - now rewrite IH.
Qed.

(** Cutting a list in consecutive chunks of [k] elements and gluing the first
    [n] chunks gives back its first [n * k] elements. *)
Lemma concat_chunks {A : Type} (k n : nat) (l : list A) :
  List.concat (map (fun i => firstn k (skipn (i * k)%nat l)) (seq 0 n))
  = firstn (n * k)%nat l.
Proof.
  induction n as [| n IH]; [reflexivity |].
  rewrite seq_S, map_app, concat_app, IH. simpl.
  rewrite app_nil_r. rewrite <- firstn_plus. f_equal. lia.
Qed.

Lemma iloc_slice_nonneg {A : Type} (l : list A) (a b : Z) :
  0 <= a -> a <= b ->
  iloc_slice l a b = firstn (Z.to_nat (b - a)) (skipn (Z.to_nat a) l).
Proof.
  intros Ha Hab. unfold iloc_slice, slice_bound.
  destruct (Z.ltb_spec a 0); [lia |]. destruct (Z.ltb_spec b 0); [lia |].
  assert (HL : len l = Z.of_nat (List.length l)) by reflexivity.
  destruct (Z.le_gt_cases (len l) a) as [Hout | Hin].
  - rewrite !skipn_all2 by lia. now rewrite !firstn_nil.
  - rewrite (Z.min_l a) by lia.
    destruct (Z.le_gt_cases b (len l)) as [Hb | Hb].
    + now rewrite (Z.min_l b) by lia.
    + rewrite (Z.min_r b) by lia.
      rewrite !firstn_all2; [reflexivity | |]; rewrite length_skipn; lia.
Qed.

Lemma mapM_map {A B C : Type} (f : A -> result B) (g : C -> A) (h : C -> B)
  (l : list C) :
  (forall c, In c l -> f (g c) = Ok (h c)) -> mapM f (map g l) = Ok (map h l).
Proof.
  induction l as [| c l IH]; intros H; simpl; [reflexivity |].
  rewrite (H c) by now left. simpl.
  rewrite IH by (intros; apply H; now right). reflexivity.
Qed.

(** ** Ceiling of a quotient *)

Lemma math_ceil_quotient (a b : Z) :
  0 < b -> math_ceil (inject_Z a / inject_Z b) = - (- a / b).
Proof.
  intros Hb. destruct b as [| p | p]; try lia.
  unfold math_ceil, Qceiling, Qfloor, Qdiv, Qmult, Qinv, Qopp, inject_Z. simpl.
  rewrite Z.mul_1_r. reflexivity.
Qed.

(** [math_ceil (a / b)] is the least integer [c] with [a <= c * b]. *)
Lemma math_ceil_spec (a b : Z) :
  0 < b ->
  let c := math_ceil (inject_Z a / inject_Z b) in
  (c - 1) * b < a <= c * b.
Proof.
  intros Hb c. subst c. rewrite math_ceil_quotient by assumption.
  pose proof (Z.mul_div_le (- a) b Hb).
  pose proof (Z.mul_succ_div_gt (- a) b Hb). lia.
Qed.

(** ** [/api/passengers]: the filter *)

Section Mask.

Variable str_lower : string -> string.
Variable re_search : string -> option (string -> bool).
Variable py_int : string -> option Z.

Lemma text_mask_returns (df : DataFrame) (ql : string)
  (cs : list (column string)) (tm : Row -> bool) :
  re_search ql <> None ->
  exists m, text_mask str_lower re_search df ql cs tm = Ok m.
Proof.
  intros Hre. revert tm. induction cs as [| c cs IH]; intros tm; simpl.
  - now exists tm.
  - destruct (has_column df (col_name c)) eqn:Hc; [| apply IH].
    rewrite (getitem_present df c Hc). simpl. unfold str_contains.
    destruct (re_search ql) as [f |]; [| contradiction]. simpl. apply IH.
Qed.

(** The filter raises nothing when the columns it reads are present, the
    query compiles and the class is a number. *)
Lemma row_mask_returns (df : DataFrame) (q survived cls : string) :
  (q <> ""%string -> re_search (str_lower q) <> None) ->
  (survived = "survived"%string \/ survived = "lost"%string ->
   has_column df "Survived" = true) ->
  (cls <> "all"%string ->
   has_column df "Pclass" = true /\ py_int cls <> None) ->
  exists mask, row_mask str_lower re_search py_int df q survived cls = Ok mask.
Proof.
  intros Hq Hs Hc. unfold row_mask.
  assert (H1 : exists m1,
            (if String.eqb q "" then Ok (fun _ : Row => Some true)
             else tm <- text_mask str_lower re_search df (str_lower q)
                          [cName; cHometown; cDestination] (fun _ => false) ;;
                  Ok (fun r => kand (Some true) (Some (tm r)))) = Ok m1).
  { destruct (String.eqb_spec q ""); [eexists; reflexivity |].
    destruct (text_mask_returns df (str_lower q)
                [cName; cHometown; cDestination] (fun _ => false) (Hq n))
      as [tm ->].
    eexists. reflexivity. }
  destruct H1 as [m1 ->]. cbn [bind].
  assert (H2 : exists m2,
            (if String.eqb survived "survived"
             then s <- getitem df cSurvived ;;
                  Ok (fun r => kand (m1 r) (eq_int s 1 r))
             else if String.eqb survived "lost"
             then s <- getitem df cSurvived ;;
                  Ok (fun r => kand (m1 r) (eq_int s 0 r))
             else Ok m1) = Ok m2).
  { destruct (String.eqb_spec survived "survived") as [E | E].
    - rewrite (getitem_present df cSurvived (Hs (or_introl E))).
      eexists. reflexivity.
    - destruct (String.eqb_spec survived "lost") as [E' | E'].
      + rewrite (getitem_present df cSurvived (Hs (or_intror E'))).
        eexists. reflexivity.
      + eexists. reflexivity. }
  destruct H2 as [m2 ->]. cbn [bind].
  destruct (String.eqb_spec cls "all") as [E | E]; [eexists; reflexivity |].
  destruct (Hc E) as [Hp Hi].
  rewrite (getitem_present df cPclass Hp). cbn [bind].
  destruct (py_int cls) as [v |]; [| contradiction]. eexists. reflexivity.
Qed.

End Mask.

(** ** [/api/passengers]: pages *)

Section PassengerPages.

Variable sort_values : string -> bool -> list Row -> list Row.
Variable str_lower : string -> string.
Variable re_search : string -> option (string -> bool).
Variable py_int : string -> option Z.

(** Sorting rearranges the rows and neither drops nor repeats one. *)
Hypothesis sort_values_perm :
  forall by_ ascending l, Permutation (sort_values by_ ascending l) l.

Local Abbreviation passengers' := (passengers sort_values str_lower re_search py_int).
Local Abbreviation row_mask' := (row_mask str_lower re_search py_int).
Local Abbreviation ordered' := (ordered sort_values).

Lemma ordered_perm (df : DataFrame) (mask : Row -> option bool)
  (sort_by sort_dir : string) :
  Permutation (ordered' df mask sort_by sort_dir) (rows (loc df mask)).
Proof.
  unfold ordered. destruct (has_column (loc df mask) sort_by).
  - apply sort_values_perm.
  - apply Permutation_refl.
Qed.

Lemma passengers_ok (q survived cls : string) (page per_page : Z)
  (sort_by sort_dir : string) (df : DataFrame) (mask : Row -> option bool) :
  1 <= page -> 1 <= per_page <= 200 ->
  row_mask' df q survived cls = Ok mask ->
  let fl := ordered' df mask sort_by sort_dir in
  let tp := Z.max 1 (math_ceil (inject_Z (len fl) / inject_Z per_page)) in
  let p := Z.min page tp in
  passengers' q survived cls page per_page sort_by sort_dir df
  = Ok {| pg_total := len fl; pg_page := p; pg_per_page := per_page;
          pg_total_pages := tp;
          pg_rows := map (display df)
                         (iloc_slice fl ((p - 1) * per_page) (p * per_page)) |}.
Proof.
  intros Hpage Hpp Hmask fl tp p. unfold passengers.
  assert (Hv : (page <? 1) || (per_page <? 1) || (per_page >? 200) = false).
  { rewrite !orb_false_iff. repeat split;
      [apply Z.ltb_ge | apply Z.ltb_ge | rewrite Z.gtb_ltb; apply Z.ltb_ge]; lia. }
  rewrite Hv, Hmask. simpl bind. rewrite truediv_nonzero by lia. reflexivity.
Qed.

(** C4.  For a page size in 1..200 and a requested page of at least 1, the
    route returns the number of matching rows, total_pages =
    max(1, ceil(total / per_page)), and the requested page clamped to the
    last page: the call does not fail, whatever the page. *)
Theorem passengers_page_clamped (q survived cls : string) (page per_page : Z)
  (sort_by sort_dir : string) (df : DataFrame) (mask : Row -> option bool) :
  1 <= page -> 1 <= per_page <= 200 ->
  row_mask' df q survived cls = Ok mask ->
  exists r c,
    passengers' q survived cls page per_page sort_by sort_dir df = Ok r
    /\ pg_total r = len (rows (loc df mask))
    /\ c = math_ceil (inject_Z (pg_total r) / inject_Z per_page)
    /\ (c - 1) * per_page < pg_total r <= c * per_page
    /\ pg_total_pages r = Z.max 1 c
    /\ pg_page r = Z.min page (pg_total_pages r)
    /\ (pg_total_pages r < page -> pg_page r = pg_total_pages r)
    /\ 1 <= pg_page r <= pg_total_pages r.
Proof.
  intros Hpage Hpp Hmask.
  eexists. eexists. split; [apply passengers_ok; eassumption |]. simpl.
  split. { unfold len. f_equal. apply Permutation_length, ordered_perm. }
  split; [reflexivity |].
  split; [apply math_ceil_spec; lia |].
  split; [reflexivity |]. split; [reflexivity |]. split; lia.
Qed.

Lemma page_rows_chunk (q survived cls : string) (per_page : Z)
  (sort_by sort_dir : string) (df : DataFrame) (mask : Row -> option bool)
  (i : nat) :
  1 <= per_page <= 200 ->
  row_mask' df q survived cls = Ok mask ->
  let fl := ordered' df mask sort_by sort_dir in
  let tp := Z.max 1 (math_ceil (inject_Z (len fl) / inject_Z per_page)) in
  let k := Z.to_nat per_page in
  (i < Z.to_nat tp)%nat ->
  page_rows sort_values str_lower re_search py_int q survived cls per_page
            sort_by sort_dir df (Z.of_nat i + 1)
  = Ok (map (display df) (firstn k (skipn (i * k)%nat fl))).
Proof.
  intros Hpp Hmask fl tp k Hi. unfold page_rows.
  rewrite (passengers_ok q survived cls (Z.of_nat i + 1) per_page sort_by
             sort_dir df mask) by (assumption || lia).
  simpl bind. simpl pg_rows. fold fl. fold tp.
  rewrite (Z.min_l (Z.of_nat i + 1) tp) by lia.
  rewrite iloc_slice_nonneg by nia.
  do 3 f_equal.
  - subst k. nia.
  - f_equal. subst k. nia.
Qed.

(** C3.  With the filter, the sort field and the sort direction fixed, the
    row slices of pages 1..total_pages, glued in page order, are the
    display rows of the filtered and sorted selection, which is a
    rearrangement of the rows that pass the filter: every such row is on
    exactly one page, exactly once. *)
Theorem pages_cover_selection_once (q survived cls : string) (per_page : Z)
  (sort_by sort_dir : string) (df : DataFrame) (mask : Row -> option bool) :
  1 <= per_page <= 200 ->
  row_mask' df q survived cls = Ok mask ->
  exists first slices,
    passengers' q survived cls 1 per_page sort_by sort_dir df = Ok first
    /\ all_pages sort_values str_lower re_search py_int q survived cls
         per_page sort_by sort_dir df (pg_total_pages first) = Ok slices
    /\ List.length slices = Z.to_nat (pg_total_pages first)
    /\ List.concat slices
       = map (display df) (ordered' df mask sort_by sort_dir)
    /\ Permutation (ordered' df mask sort_by sort_dir) (rows (loc df mask)).
Proof.
  intros Hpp Hmask.
  set (fl := ordered' df mask sort_by sort_dir).
  set (tp := Z.max 1 (math_ceil (inject_Z (len fl) / inject_Z per_page))).
  set (k := Z.to_nat per_page).
  set (chunk := fun i : nat => firstn k (skipn (i * k)%nat fl)).
  eexists. exists (map (fun i => map (display df) (chunk i)) (seq 0 (Z.to_nat tp))).
  split; [apply passengers_ok; [lia | assumption | eassumption] |].
  simpl pg_total_pages. fold fl. fold tp.
  split; [| split; [| split]].
  - unfold all_pages, range. rewrite map_map.
    apply mapM_map. intros i Hi. apply in_seq in Hi.
    apply page_rows_chunk; [assumption | assumption |]. fold fl. fold tp. lia.
  - now rewrite length_map, length_seq.
  - rewrite <- (map_map chunk (map (display df))), <- concat_map. f_equal.
    unfold chunk. rewrite concat_chunks. apply firstn_all2.
    pose proof (math_ceil_spec (len fl) per_page ltac:(lia)) as Hc.
    cbv zeta in Hc.
    assert (Htp : math_ceil (inject_Z (len fl) / inject_Z per_page) <= tp)
      by apply Z.le_max_r.
    assert (Hlen : len fl <= tp * per_page) by nia.
    unfold len in Hlen. subst k. nia.
  - apply ordered_perm.
Qed.

End PassengerPages.

(** ** Insertion sort *)

Section InsertionSort.

Context {A : Type} (leb : A -> A -> bool).

Lemma insert_by_perm (x : A) (l : list A) :
  Permutation (insert_by leb x l) (x :: l).
Proof.
  induction l as [| y l IH]; simpl; [apply Permutation_refl |].
  destruct (leb x y); [apply Permutation_refl |].
  eapply perm_trans; [apply perm_skip, IH | apply perm_swap].
Qed.

Lemma isort_perm (l : list A) : Permutation (isort leb l) l.
Proof.
  induction l as [| x l IH]; simpl; [constructor |].
  eapply perm_trans; [apply insert_by_perm | now apply perm_skip].
Qed.

Hypothesis leb_total : forall x y, leb x y = false -> leb y x = true.

Lemma insert_by_sorted (x : A) (l : list A) :
  Sorted (fun a b => leb a b = true) l ->
  Sorted (fun a b => leb a b = true) (insert_by leb x l).
Proof.
  induction 1 as [| y l Hs IH Hhd]; simpl; [repeat constructor |].
  destruct (leb x y) eqn:E.
  - constructor; [now constructor | now constructor].
  - constructor; [exact IH |].
    destruct l as [| z l]; simpl.
    + constructor. now apply leb_total.
    + destruct (leb x z); constructor.
      * now apply leb_total.
      * now inversion Hhd.
Qed.

Lemma isort_sorted (l : list A) :
  Sorted (fun a b => leb a b = true) (isort leb l).
Proof.
  induction l as [| x l IH]; simpl; [constructor |].
  now apply insert_by_sorted.
Qed.

End InsertionSort.

Lemma Sorted_weaken {A : Type} (R R' : A -> A -> Prop) (l : list A) :
  (forall x y, R x y -> R' x y) -> Sorted R l -> Sorted R' l.
Proof.
  intros H. induction 1 as [| x l Hs IH Hhd]; constructor; [exact IH |].
  destruct Hhd; constructor. now apply H.
Qed.

(** The stable sort is an instance of what the routes assume of
    [sort_values]. *)
Lemma stable_sort_values_perm (by_ : string) (ascending : bool) (l : list Row) :
  Permutation (stable_sort_values by_ ascending l) l.
Proof. apply isort_perm. Qed.

Lemma Qle_bool_total (x y : Q) : Qle_bool x y = false -> Qle_bool y x = true.
Proof.
  intros H. apply Qle_bool_iff. destruct (Qlt_le_dec y x) as [Hlt | Hle].
  - now apply Qlt_le_weak.
  - apply Qle_bool_iff in Hle. congruence.
Qed.

Lemma row_leb_fare (x y : Row) :
  row_leb "Fare" true x y
  = match Fare x, Fare y with
    | Some a, Some b => Qle_bool a b
    | _, None => true
    | None, Some _ => false
    end.
Proof.
  unfold row_leb. change (sort_key "Fare" x) with (option_map KNum (Fare x)).
  change (sort_key "Fare" y) with (option_map KNum (Fare y)).
  now destruct (Fare x), (Fare y).
Qed.

Lemma stable_sort_values_fare (l : list Row) :
  Sorted fare_le (stable_sort_values "Fare" true l).
Proof.
  apply (Sorted_weaken (fun a b => row_leb "Fare" true a b = true)).
  - intros x y. rewrite row_leb_fare. unfold fare_le.
    destruct (Fare x), (Fare y); try easy. apply Qle_bool_iff.
  - apply isort_sorted. intros x y. rewrite !row_leb_fare.
    destruct (Fare x), (Fare y); try easy. apply Qle_bool_total.
Qed.

(** ** [/api/passengers]: instances *)

Lemma passengers_page_clamped_witness :
  exists r c,
    passengers stable_sort_values lower_ascii literal_search int_of_digits
      "" "survived" "all" 7 1 "Fare" "asc" three_passengers = Ok r
    /\ pg_total r = len (rows (loc three_passengers survived_mask))
    /\ c = math_ceil (inject_Z (pg_total r) / inject_Z 1)
    /\ (c - 1) * 1 < pg_total r <= c * 1
    /\ pg_total_pages r = Z.max 1 c
    /\ pg_page r = Z.min 7 (pg_total_pages r)
    /\ (pg_total_pages r < 7 -> pg_page r = pg_total_pages r)
    /\ 1 <= pg_page r <= pg_total_pages r.
Proof.
  apply (passengers_page_clamped stable_sort_values lower_ascii literal_search
           int_of_digits stable_sort_values_perm
           "" "survived" "all" 7 1 "Fare" "asc" three_passengers survived_mask);
    [lia | lia | reflexivity].
Defined.

Lemma pages_cover_selection_once_witness :
  exists first slices,
    passengers stable_sort_values lower_ascii literal_search int_of_digits
      "" "survived" "all" 1 1 "Fare" "asc" three_passengers = Ok first
    /\ all_pages stable_sort_values lower_ascii literal_search int_of_digits
         "" "survived" "all" 1 "Fare" "asc" three_passengers
         (pg_total_pages first) = Ok slices
    /\ List.length slices = Z.to_nat (pg_total_pages first)
    /\ List.concat slices
       = map (display three_passengers)
             (ordered stable_sort_values three_passengers survived_mask
                      "Fare" "asc")
    /\ Permutation
         (ordered stable_sort_values three_passengers survived_mask "Fare" "asc")
         (rows (loc three_passengers survived_mask)).
Proof.
  apply (pages_cover_selection_once stable_sort_values lower_ascii
           literal_search int_of_digits stable_sort_values_perm
           "" "survived" "all" 1 "Fare" "asc" three_passengers survived_mask);
    [lia | reflexivity].
Defined.

(** What [display] puts in the name, sex and fare of a row. *)
Lemma display_name_sex_fare (df : DataFrame) (r : Row) :
  d_name (display df r)
  = (if has_column df "Name" then Name r else Some "Unknown"%string)
  /\ d_sex (display df r)
     = (if has_column df "Sex" then Sex r else Some ""%string)
  /\ d_fare (display df r)
     = (if has_column df "Fare"
        then option_map (fun f => py_round_nd f 2) (Fare r) else None).
Proof.
  unfold display, row_get, round_float. simpl.
  repeat split. destruct (has_column df "Fare"); [| reflexivity].
  now destruct (Fare r).
Qed.

(** C8 at a row whose name and sex cells are empty while the columns exist:
    [r.get(c, default)] falls back to the default only for an absent
    column, so the row is displayed with a missing name and a missing sex,
    not with "Unknown" and the empty string. *)
Theorem display_keeps_missing_name :
  exists r row,
    passengers stable_sort_values lower_ascii literal_search int_of_digits
      "" "all" "all" 1 50 "PassengerId" "asc" anonymous_passenger = Ok r
    /\ pg_rows r = [row]
    /\ d_name row = None /\ d_name row <> Some "Unknown"%string
    /\ d_sex row = None /\ d_sex row <> Some ""%string.
Proof.
  eexists. eexists. split; [reflexivity |]. simpl.
  repeat split; discriminate.
Qed.

(** ** Rounding *)

Ltac compare_to_order H :=
  match type of H with
  | (_ ?= _)%Q = Eq => apply Qeq_alt in H
  | (_ ?= _)%Q = Lt => apply Qlt_alt in H
  | (_ ?= _)%Q = Gt => apply Qgt_alt in H
  end.

Lemma round_half_even_floor (x : Q) :
  round_half_even x = Qfloor x \/ round_half_even x = Qfloor x + 1.
Proof.
  unfold round_half_even.
  destruct (x - inject_Z (Qfloor x) ?= 1 # 2)%Q; auto.
  destruct (Z.even (Qfloor x)); auto.
Qed.

Lemma floor_bounds (x : Q) :
  (inject_Z (Qfloor x) <= x /\ x < inject_Z (Qfloor x) + 1)%Q.
Proof.
  split; [apply Qfloor_le |].
  pose proof (Qlt_floor x) as H. rewrite inject_Z_plus in H. exact H.
Qed.

Lemma round_half_even_mono (x y : Q) :
  (x <= y)%Q -> round_half_even x <= round_half_even y.
Proof.
  intros Hxy. pose proof (Qfloor_resp_le x y Hxy) as Hf.
  destruct (Z_le_lt_eq_dec _ _ Hf) as [Hlt | Heq].
  - destruct (round_half_even_floor x), (round_half_even_floor y); lia.
  - pose proof (floor_bounds x) as [Hx1 Hx2].
    pose proof (floor_bounds y) as [Hy1 Hy2].
    unfold round_half_even. rewrite <- Heq in Hy1, Hy2 |- *.
    destruct (x - inject_Z (Qfloor x) ?= 1 # 2)%Q eqn:Ex;
      destruct (y - inject_Z (Qfloor x) ?= 1 # 2)%Q eqn:Ey;
      try (destruct (Z.even (Qfloor x)); lia); try lia; exfalso;
      compare_to_order Ex; compare_to_order Ey; lra.
Qed.

Lemma round_half_even_nearest (x : Q) :
  (inject_Z (round_half_even x) - (1 # 2) <= x
   /\ x <= inject_Z (round_half_even x) + (1 # 2))%Q.
Proof.
  pose proof (floor_bounds x) as [Hx1 Hx2]. unfold round_half_even.
  destruct (x - inject_Z (Qfloor x) ?= 1 # 2)%Q eqn:Ex; compare_to_order Ex;
    try destruct (Z.even (Qfloor x)); rewrite ?inject_Z_plus;
    change (inject_Z 1) with 1%Q; split; lra.
Qed.

Lemma py_round_nd_mono (x y : Q) (nd : nat) :
  (x <= y)%Q -> (py_round_nd x nd <= py_round_nd y nd)%Q.
Proof.
  intros Hxy. unfold py_round_nd.
  assert (Hpos : 0 < 10 ^ Z.of_nat nd) by (apply Z.pow_pos_nonneg; lia).
  set (s := 10 ^ Z.of_nat nd) in *.
  assert (Hs : (0 < inject_Z s)%Q) by (unfold Qlt; simpl; lia).
  apply Qmult_le_compat_r.
  - rewrite <- Zle_Qle. apply round_half_even_mono.
    apply Qmult_le_compat_r; [assumption | now apply Qlt_le_weak].
  - apply Qinv_le_0_compat. now apply Qlt_le_weak.
Qed.

(** The rounded percentage of [c] out of [t] is within one half of the exact
    percentage. *)
Lemma py_round_pct_nearest (c t : Z) :
  0 < t ->
  let p := py_round (inject_Z c / inject_Z t * 100) in
  200 * c - t <= 2 * t * p <= 200 * c + t.
Proof.
  intros Ht p. subst p. unfold py_round.
  pose proof (round_half_even_nearest (inject_Z c / inject_Z t * 100)) as [H1 H2].
  set (p := round_half_even _) in *. clearbody p.
  destruct t as [| tp | tp]; try lia.
  unfold Qdiv, Qmult, Qinv, Qle, Qplus, Qminus, Qopp, inject_Z in H1, H2.
  simpl in H1, H2. lia.
Qed.

(** ** [/api/heatmap] *)

Lemma int_of_float_quotient (a n : Z) :
  0 <= a -> 0 < n -> int_of_float (inject_Z a / inject_Z n) = a / n.
Proof.
  intros Ha Hn. destruct n as [| p | p]; try lia.
  unfold int_of_float, Qdiv, Qmult, Qinv, inject_Z. simpl.
  rewrite Z.mul_1_r. apply Z.quot_div_nonneg; lia.
Qed.

Lemma fare_le_refl (r : Row) : fare_le r r.
Proof. unfold fare_le. destruct (Fare r); [apply Qle_refl | exact I]. Qed.

Lemma fare_le_trans (a b c : Row) : fare_le a b -> fare_le b c -> fare_le a c.
Proof.
  unfold fare_le. destruct (Fare a), (Fare b), (Fare c); try easy.
  apply Qle_trans.
Qed.

Lemma StronglySorted_nth {A : Type} (R : A -> A -> Prop) (l : list A) (d : A) :
  StronglySorted R l ->
  forall i j, (i < j < List.length l)%nat -> R (nth i l d) (nth j l d).
Proof.
  induction 1 as [| x l Hs IH Hall]; intros i j Hij; simpl in Hij; [lia |].
  destruct j as [| j]; [lia |]. destruct i as [| i]; simpl.
  - rewrite Forall_forall in Hall. apply Hall, nth_In. lia.
  - apply IH. lia.
Qed.

Lemma Sorted_map_seq {B : Type} (R : B -> B -> Prop) (f : nat -> B) (a k : nat) :
  (forall j, (a <= j)%nat -> (S j < a + k)%nat -> R (f j) (f (S j))) ->
  Sorted R (map f (seq a k)).
Proof.
  revert a. induction k as [| k IH]; intros a H; simpl; [constructor |].
  constructor.
  - apply IH. intros j Hj1 Hj2. apply H; lia.
  - destruct k as [| k]; simpl; constructor. apply H; lia.
Qed.

Lemma point_le_of_fare_le (x y : Row) :
  Fare x <> None -> Fare y <> None -> fare_le x y -> point_le (point x) (point y).
Proof.
  unfold fare_le, point_le, point, round_float. simpl.
  destruct (Fare x), (Fare y); try easy. intros _ _. apply py_round_nd_mono.
Qed.

Lemma fares_nondecreasing_points (l : list Row) :
  Sorted fare_le l -> Forall (fun r => Fare r <> None) l ->
  fares_nondecreasing (map point l).
Proof.
  intros Hs Hf. split.
  - induction Hs as [| x l Hs IH Hhd]; simpl; constructor.
    + apply IH. now inversion Hf.
    + inversion Hf as [| ? ? Hx Hl]; subst.
      destruct Hhd as [| y l Hxy]; simpl; constructor.
      inversion Hl; subst. now apply point_le_of_fare_le.
  - rewrite Forall_map. eapply Forall_impl; [| exact Hf].
    intros r Hr. cbv beta in Hr. unfold point, round_float. simpl.
    destruct (Fare r); [discriminate | contradiction].
Qed.

Lemma with_fare_present (df : DataFrame) :
  Forall (fun r => Fare r <> None) (with_fare df).
Proof.
  apply Forall_forall. intros r Hr. unfold with_fare in Hr.
  apply filter_In in Hr. destruct Hr as [_ Hr]. now destruct (Fare r).
Qed.

Lemma sample_position (L n i : Z) :
  0 <= i < n -> n < L -> 0 <= i * L / n < L.
Proof.
  intros Hi HL. split.
  - apply Z.div_pos; nia.
  - apply Z.div_lt_upper_bound; nia.
Qed.

Lemma sample_position_mono (L n i : Z) :
  0 <= i -> 0 < n -> 0 <= L -> i * L / n <= (i + 1) * L / n.
Proof. intros. apply Z.div_le_mono; nia. Qed.

Lemma in_range (n i : Z) : In i (range n) <-> 0 <= i < n.
Proof.
  unfold range. rewrite in_map_iff. split.
  - intros [j [Hj Hin]]. apply in_seq in Hin. lia.
  - intros H. exists (Z.to_nat i). split; [lia |]. apply in_seq. lia.
Qed.

Lemma mapM_ok {A B : Type} (f : A -> result B) (h : A -> B) (l : list A) :
  (forall a, In a l -> f a = Ok (h a)) -> mapM f l = Ok (map h l).
Proof.
  intros H. rewrite <- (map_id l) at 1. now apply mapM_map.
Qed.

Lemma getitems_heatmap (df : DataFrame) :
  has_column df "Fare" = true -> has_column df "Survived" = true ->
  has_column df "Pclass" = true ->
  getitems df ["Fare"; "Survived"; "Pclass"]%string
  = Ok {| columns := ["Fare"; "Survived"; "Pclass"]%string; rows := rows df |}.
Proof. intros H1 H2 H3. unfold getitems. simpl. now rewrite H1, H2, H3. Qed.

Section Heatmap.

Variable sort_values : string -> bool -> list Row -> list Row.

Hypothesis sort_values_perm :
  forall by_ ascending l, Permutation (sort_values by_ ascending l) l.

Hypothesis sort_values_fare :
  forall l, Sorted fare_le (sort_values "Fare" true l).

Lemma heatmap_unfold (n : Z) (df : DataFrame) :
  has_column df "Fare" = true ->
  has_column df "Survived" = true ->
  has_column df "Pclass" = true ->
  n <= 500 ->
  heatmap sort_values n df
  = (let hm := sort_values "Fare" true (with_fare df) in
     picked <- (if len hm >? n
                then idx <- mapM (sample_index (len hm) n) (range n) ;;
                     iloc_list hm idx
                else Ok hm) ;;
     Ok (map point picked)).
Proof.
  intros HF HS HP Hn. unfold heatmap.
  destruct (Z.gtb_spec n 500); [lia |].
  now rewrite (getitems_heatmap df HF HS HP).
Qed.

(** C2, as the code has it.  A request with [n] above 500 is refused by the
    parameter validation; [n] is not capped.  For [n <= 500] the route takes
    the rows that have a fare, sorted by fare; it returns them all when
    there are at most [n], and otherwise the rows at positions
    [floor(i * len / n)] for [i] in [range(n)].  The points number at most
    [max(0, n)] and their fares never decrease. *)
Theorem heatmap_sample (n : Z) (df : DataFrame) :
  has_column df "Fare" = true ->
  has_column df "Survived" = true ->
  has_column df "Pclass" = true ->
  let hm := sort_values "Fare" true (with_fare df) in
  (500 < n -> heatmap sort_values n df = Raise RequestValidationError)
  /\ (n <= 500 ->
      exists picked,
        heatmap sort_values n df = Ok (map point picked)
        /\ Permutation hm (with_fare df)
        /\ Sorted fare_le hm
        /\ (len hm <= n -> picked = hm)
        /\ (n < len hm ->
            map Some picked
            = map (fun i => nth_error hm (Z.to_nat (i * len hm / n))) (range n))
        /\ len picked <= Z.max 0 n
        /\ fares_nondecreasing (map point picked)).
Proof.
  intros HF HS HP hm. split.
  - intros Hn. unfold heatmap. destruct (Z.gtb_spec n 500); [reflexivity | lia].
  - intros Hn. rewrite heatmap_unfold by assumption. cbv zeta. fold hm.
    assert (Hperm : Permutation hm (with_fare df)) by apply sort_values_perm.
    assert (Hsorted : Sorted fare_le hm) by apply sort_values_fare.
    assert (Hpresent : Forall (fun r => Fare r <> None) hm).
    { eapply Permutation_Forall; [apply Permutation_sym, Hperm |].
      apply with_fare_present. }
    destruct (Z.gtb_spec (len hm) n) as [Hbig | Hsmall].
    + destruct (Z.le_gt_cases n 0) as [Hneg | Hpos].
      * (* [range(n)] is empty *)
        assert (Hr : range n = []).
        { unfold range. replace (Z.to_nat n) with 0%nat by lia. reflexivity. }
        exists []. rewrite Hr. simpl.
        split; [reflexivity |]. split; [assumption |]. split; [assumption |].
        split; [intros; lia |]. split; [reflexivity |].
        split; [unfold len; simpl; lia |].
        split; constructor.
      * assert (Hex : exists r0 : Row, True).
        { revert Hbig. generalize hm. intros [| r0 tl] Hbig;
            [unfold len in Hbig; simpl in Hbig; lia | now exists r0]. }
        destruct Hex as [r0 _].
        set (L := len hm) in *.
        set (pos := fun i : Z => i * L / n).
        set (pick := fun i : Z => nth (Z.to_nat (pos i)) hm r0).
        assert (Hpos_in : forall i, 0 <= i < n -> (Z.to_nat (pos i) < List.length hm)%nat).
        { intros i Hi. pose proof (sample_position L n i Hi ltac:(lia)) as Hp.
          unfold pos. set (p := i * L / n) in *. clearbody p.
          unfold L, len in Hp. lia. }
        assert (Hidx : mapM (sample_index L n) (range n) = Ok (map pos (range n))).
        { apply mapM_ok. intros i Hi. apply in_range in Hi.
          unfold sample_index. rewrite truediv_nonzero by lia. simpl.
          f_equal. apply int_of_float_quotient; [unfold L; pose proof (len_nonneg hm); nia | lia]. }
        assert (Hpick : iloc_list hm (map pos (range n)) = Ok (map pick (range n))).
        { apply mapM_map. intros i Hi. apply in_range in Hi.
          pose proof (sample_position L n i Hi ltac:(lia)) as Hp.
          unfold iloc_at. fold (pos i) in Hp.
          destruct (Z.ltb_spec (pos i) 0); [lia |].
          destruct (Z.ltb_spec (pos i) 0); [lia |].
          unfold pick. now rewrite (nth_error_nth' hm r0 (Hpos_in i Hi)). }
        exists (map pick (range n)). rewrite Hidx. simpl bind. rewrite Hpick. simpl bind.
        split; [reflexivity |]. split; [assumption |]. split; [assumption |].
        split; [intros; lia |].
        split.
        { intros _. rewrite map_map. apply map_ext_in. intros i Hi.
          apply in_range in Hi. unfold pick. symmetry.
          apply nth_error_nth'. exact (Hpos_in i Hi). }
        split.
        { unfold len, range. rewrite !length_map, length_seq. lia. }
        apply fares_nondecreasing_points.
        { unfold range. rewrite map_map. apply Sorted_map_seq.
          intros j _ Hj.
          assert (Hj' : 0 <= Z.of_nat j < n /\ 0 <= Z.of_nat (S j) < n) by lia.
          destruct Hj' as [Hj1 Hj2].
          pose proof (Hpos_in _ Hj1). pose proof (Hpos_in _ Hj2).
          assert (Hm : pos (Z.of_nat j) <= pos (Z.of_nat (S j))).
          { unfold pos. replace (Z.of_nat (S j)) with (Z.of_nat j + 1) by lia.
            apply sample_position_mono; [lia | lia | apply len_nonneg]. }
          pose proof (sample_position L n _ Hj1 ltac:(lia)) as Hp1. fold (pos (Z.of_nat j)) in Hp1.
          unfold pick.
          destruct (Z.eq_dec (pos (Z.of_nat j)) (pos (Z.of_nat (S j)))) as [E | E].
          - rewrite E. apply fare_le_refl.
          - apply StronglySorted_nth; [| lia].
            apply Sorted_StronglySorted; [| assumption].
            intros a b c. apply fare_le_trans. }
        { apply Forall_forall. intros r Hr. apply in_map_iff in Hr.
          destruct Hr as [i [Hi Hin]]. apply in_range in Hin. subst r.
          rewrite Forall_forall in Hpresent. apply Hpresent.
          unfold pick. apply nth_In. now apply Hpos_in. }
    + exists hm. simpl bind.
      split; [reflexivity |]. split; [assumption |]. split; [assumption |].
      split; [reflexivity |]. split; [intros; lia |].
      split; [pose proof (len_nonneg hm); lia |].
      now apply fares_nondecreasing_points.
Qed.

End Heatmap.

Lemma heatmap_sample_witness :
  let hm := stable_sort_values "Fare" true (with_fare three_passengers) in
  (500 < 2 -> heatmap stable_sort_values 2 three_passengers
              = Raise RequestValidationError)
  /\ (2 <= 500 ->
      exists picked,
        heatmap stable_sort_values 2 three_passengers = Ok (map point picked)
        /\ Permutation hm (with_fare three_passengers)
        /\ Sorted fare_le hm
        /\ (len hm <= 2 -> picked = hm)
        /\ (2 < len hm ->
            map Some picked
            = map (fun i => nth_error hm (Z.to_nat (i * len hm / 2))) (range 2))
        /\ len picked <= Z.max 0 2
        /\ fares_nondecreasing (map point picked)).
Proof.
  apply (heatmap_sample stable_sort_values stable_sort_values_perm
           stable_sort_values_fare 2 three_passengers); reflexivity.
Defined.

(** C2, as stated, fails at [n = 501], which is refused instead of being
    capped at 500, and at [n = -1], where the empty answer has more points
    than [min(n, 500)]. *)
Lemma heatmap_n_not_capped :
  heatmap stable_sort_values 501 three_passengers = Raise RequestValidationError
  /\ exists pts,
       heatmap stable_sort_values (-1) three_passengers = Ok pts
       /\ ~ len pts <= Z.min (-1) 500.
Proof.
  split; [reflexivity |]. exists []. split; [reflexivity |].
  unfold len. simpl. lia.
Qed.

(** ** [/api/by-age-group] *)

Ltac qle_to_order :=
  repeat match goal with
  | H : Qle_bool _ _ = true |- _ => apply Qle_bool_iff in H
  | H : Qle_bool _ _ = false |- _ =>
      apply not_true_iff_false in H; rewrite Qle_bool_iff in H
  end.

Lemma grp_bucket (r : Row) (l : string) (lo hi : Z) :
  In (l, (lo, hi)) age_buckets ->
  notna (Age r) && is_true (eq_str grp l r) = age_in lo hi r.
Proof.
  intros Hin. unfold age_in, eq_str, grp.
  destruct (Age r) as [a |]; [| reflexivity]. simpl notna.
  unfold cut, bins, labels, cut_from, Qltb.
  destruct (Qle_bool a (inject_Z 0)) eqn:E0, (Qle_bool a (inject_Z 12)) eqn:E12,
           (Qle_bool a (inject_Z 18)) eqn:E18, (Qle_bool a (inject_Z 35)) eqn:E35,
           (Qle_bool a (inject_Z 60)) eqn:E60, (Qle_bool a (inject_Z 120)) eqn:E120;
    simpl in Hin;
    repeat (destruct Hin as [Hin | Hin]; [injection Hin as <- <- <- |]);
    try contradiction;
    rewrite ?E0, ?E12, ?E18, ?E35, ?E60, ?E120; try reflexivity;
    exfalso; qle_to_order; unfold inject_Z in *; lra.
Qed.

Lemma filter_filter {A : Type} (f g : A -> bool) (l : list A) :
  filter f (filter g l) = filter (fun x => g x && f x) l.
Proof.
  induction l as [| a l IH]; simpl; [reflexivity |].
  destruct (g a); simpl; [destruct (f a) |]; now rewrite IH.
Qed.

Lemma collect_map {A B C : Type} (f : A -> result (option B)) (g : C -> A)
  (h : C -> option B) (l : list C) :
  (forall c, In c l -> f (g c) = Ok (h c)) ->
  collect f (map g l) = Ok (somes (map h l)).
Proof.
  induction l as [| c l IH]; intros H; simpl; [reflexivity |].
  rewrite (H c) by now left. simpl.
  rewrite IH by (intros; apply H; now right). simpl. now destruct (h c).
Qed.

Lemma len_cons {A : Type} (a : A) (l : list A) : len (a :: l) = 1 + len l.
Proof. unfold len. cbn [List.length]. lia. Qed.

Lemma Zsum_cons (a : Z) (l : list Z) : Zsum (a :: l) = a + Zsum l.
Proof. reflexivity. Qed.

Lemma len_known (l : list Row) :
  len (somes (map Survived l)) = known_count l.
Proof.
  unfold known_count. induction l as [| r l IH]; simpl; [reflexivity |].
  destruct (Survived r); simpl; [rewrite !len_cons; now rewrite IH | exact IH].
Qed.

Lemma Zsum_survived (l : list Row) :
  Forall survived_flag l -> Zsum (somes (map Survived l)) = survived_count l.
Proof.
  unfold survived_count. induction 1 as [| r l Hr Hl IH]; [reflexivity |].
  cbn [map filter]. unfold is_survivor at 1.
  destruct Hr as [E | [E | E]]; rewrite E; cbn [somes];
    rewrite ?Zsum_cons, ?len_cons; lia.
Qed.

Lemma rows_aged_bucket (df : DataFrame) (l : string) (lo hi : Z) :
  In (l, (lo, hi)) age_buckets ->
  rows (loc (aged df) (eq_str grp l)) = filter (age_in lo hi) (rows df).
Proof.
  intros Hin. unfold loc, aged, dropna. simpl. rewrite filter_filter.
  apply filter_ext. intros r. now apply grp_bucket.
Qed.

Lemma has_column_aged (df : DataFrame) (c : string) :
  has_column df c = true -> has_column (aged df) c = true.
Proof.
  unfold has_column, aged. simpl. rewrite existsb_app. intros ->. reflexivity.
Qed.




Lemma in_somes_map {A B : Type} (h : A -> option B) (l : list A) (b : B) :
  In b (somes (map h l)) <-> exists a, In a l /\ h a = Some b.
Proof.
  induction l as [| a l IH]; simpl.
  - split; [contradiction | intros [a [[] _]]].
  - destruct (h a) as [b' |] eqn:E; simpl; rewrite IH; split.
    + intros [-> | [a' [Hin Ha]]]; [exists a; auto | exists a'; auto].
    + intros [a' [[-> | Hin] Ha]]; [left; congruence | right; exists a'; auto].
    + intros [a' [Hin Ha]]. exists a'; auto.
    + intros [a' [[-> | Hin] Ha]]; [congruence | exists a'; auto].
Qed.




(** A bucket whose rows all lack an outcome has no mean to round. *)
Example by_age_group_no_outcome :
  by_age_group outcome_unknown = Raise TypeError.
Proof. reflexivity. Qed.

(** The percentage is taken over the rows with a known outcome. *)
Example by_age_group_unknown_outcome :
  by_age_group one_unknown_outcome
  = Ok [{| ae_group := "Young Adult (19–35)"; ae_total := 2;
           ae_survived := 1; ae_pct := 100 |}].
Proof. reflexivity. Qed.

(** ** [/api/by-port] *)

Lemma Zsum_app (l1 l2 : list Z) : Zsum (l1 ++ l2) = Zsum l1 + Zsum l2.
Proof.
  induction l1 as [| a l1 IH]; [reflexivity |].
  cbn [app]. rewrite !Zsum_cons, IH. lia.
Qed.


Lemma in_somes {A : Type} (l : list (option A)) (a : A) :
  In a (somes l) <-> In (Some a) l.
Proof.
  induction l as [| [b |] l IH]; simpl; [tauto | |].
  - rewrite IH. split; intros [H | H]; auto; left; congruence.
  - rewrite IH. split; [auto | intros [H | H]; [discriminate | exact H]].
Qed.

Lemma in_values (df : DataFrame) (f : Row -> option string) (k : string) :
  In k (values df f) <-> exists r, In r (rows df) /\ f r = Some k.
Proof.
  unfold values. rewrite in_somes, in_map_iff. split.
  - intros [r [H Hin]]. now exists r.
  - intros [r [Hin H]]. now exists r.
Qed.


Lemma group_keys_In (vs : list string) (k : string) :
  In k (group_keys vs) <-> In k vs.
Proof.
  unfold group_keys. split; intros H.
  - apply (nodup_In string_dec).
    eapply Permutation_in; [apply isort_perm | exact H].
  - eapply Permutation_in; [apply Permutation_sym, isort_perm |].
    now apply nodup_In.
Qed.

Section Counting.

Variable f : Row -> option string.

Lemma holds_iff (k : string) (r : Row) : holds f k r = true <-> f r = Some k.
Proof.
  unfold holds, is_true, eq_str. destruct (f r) as [s |].
  - destruct (String.eqb_spec s k); split; congruence.
  - split; discriminate.
Qed.

Lemma len_filter_le {A : Type} (p : A -> bool) (l : list A) :
  len (filter p l) <= len l.
Proof.
  induction l as [| a l IH]; simpl; [lia |].
  destruct (p a); rewrite ?len_cons; lia.
Qed.

Lemma len_filter_split (k : string) (ks : list string) (l : list Row) :
  ~ In k ks ->
  len (filter (holds f k) l) + len (filter (fun r => existsb (fun k' => holds f k' r) ks) l)
  = len (filter (fun r => existsb (fun k' => holds f k' r) (k :: ks)) l).
Proof.
  intros Hk. induction l as [| r l IH]; [reflexivity |].
  cbn [filter existsb] in *.
  destruct (holds f k r) eqn:E1; cbn [orb].
  - destruct (existsb (fun k' => holds f k' r) ks) eqn:E2.
    + exfalso. apply existsb_exists in E2. destruct E2 as [k' [Hin Hk']].
      apply holds_iff in E1, Hk'. assert (k = k') by congruence. now subst.
    + rewrite !len_cons. lia.
  - destruct (existsb (fun k' => holds f k' r) ks); rewrite ?len_cons; lia.
Qed.

Lemma group_sizes_le (ks : list string) (l : list Row) :
  NoDup ks ->
  Zsum (map (fun k => len (filter (holds f k) l)) ks) <= len l.
Proof.
  intros Hnd.
  assert (H : Zsum (map (fun k => len (filter (holds f k) l)) ks)
              = len (filter (fun r => existsb (fun k' => holds f k' r) ks) l)).
  { induction Hnd as [| k ks Hk Hnd IH]; cbn [map].
    - induction l as [| r l IHl]; [reflexivity | exact IHl].
    - rewrite Zsum_cons, IH. now apply len_filter_split. }
  rewrite H. apply len_filter_le.
Qed.

End Counting.




Lemma by_port_unfold (df : DataFrame) :
  has_column df (col_name (_port_col df)) = true ->
  by_port df
  = Ok (sorted (fun x => - count x)
          (somes (map (port_entry df) (group_keys (values df (port_of df)))))).
Proof.
  intros Hcol. unfold by_port. rewrite Hcol. cbn [negb]. unfold groupby.
  fold (port_of df).
  rewrite (collect_map _ _ (port_entry df)); [reflexivity |].
  intros k Hk. apply group_keys_In, in_values in Hk.
  destruct Hk as [r [Hr _]].
  unfold by_port_step, port_entry. destruct (strip_is_empty k); [reflexivity |].
  rewrite truediv_nonzero; [reflexivity |].
  intros H0. apply len_zero_iff in H0. rewrite H0 in Hr. contradiction.
Qed.

Lemma sorted_perm {A : Type} (key : A -> Z) (l : list A) :
  Permutation (sorted key l) l.
Proof. apply isort_perm. Qed.





(** Without a port column the route reports nothing. *)
Lemma by_port_no_column (df : DataFrame) :
  has_column df (col_name (_port_col df)) = false -> by_port df = Ok [].
Proof. intros H. unfold by_port. now rewrite H. Qed.

(** ** The table cache *)

Module CacheFacts.
Import Cache.







Section Invariant.

Variable source : DataFrame.





End Invariant.


End CacheFacts.
(** * Further properties of the routes *)

(** ** Loops that collect *)

Lemma collect_ext {A B : Type} (f h : A -> result (option B)) (l : list A) :
  (forall a, In a l -> f a = h a) -> collect f l = collect h l.
Proof.
  induction l as [| a l IH]; intros H; [reflexivity |].
  cbn [collect]. rewrite (H a) by now left.
  rewrite IH by (intros; apply H; now right). reflexivity.
Qed.

Lemma collect_ok {A B : Type} (f : A -> result (option B)) (h : A -> option B)
  (l : list A) :
  (forall a, In a l -> f a = Ok (h a)) -> collect f l = Ok (somes (map h l)).
Proof.
  intros H. rewrite <- (map_id l) at 1. now apply collect_map.
Qed.

(** A loop whose steps can only fail with [e] fails with [e] as soon as one
    step does. *)
Lemma collect_raise {A B : Type} (f : A -> result (option B)) (e : exn)
  (l : list A) :
  (forall a, In a l -> f a = Raise e \/ exists o, f a = Ok o) ->
  (exists a, In a l /\ f a = Raise e) ->
  collect f l = Raise e.
Proof.
  induction l as [| a l IH]; intros Hall [b [Hin Hb]]; [contradiction |].
  cbn [collect]. destruct (Hall a (or_introl eq_refl)) as [-> | [o Ho]];
    [reflexivity |].
  rewrite Ho. cbn [bind]. rewrite IH; [reflexivity | |].
  - intros a' Ha'. apply Hall. now right.
  - destruct Hin as [<- | Hin]; [congruence | now exists b].
Qed.

(** The sizes reported for the groups that have a row add up to the sizes of
    all the groups. *)
Lemma Zsum_nonempty_groups {B C : Type} (size : C -> Z) (mk : C -> B)
  (tot : B -> Z) (l : list C) :
  (forall c, tot (mk c) = size c) ->
  Zsum (map tot (somes (map (fun c => if size c =? 0 then None
                                      else Some (mk c)) l)))
  = Zsum (map size l).
Proof.
  intros H. induction l as [| c l IH]; [reflexivity |].
  cbn [map]. destruct (Z.eqb_spec (size c) 0) as [E | E]; cbn [somes map];
    rewrite ?Zsum_cons, IH, ?H; lia.
Qed.

(** ** Outcomes of a group *)

Lemma outcome_split (l : list Row) :
  Forall survived_flag l ->
  len l = survived_count l + lost_count l + unknown_count l
  /\ known_count l = survived_count l + lost_count l
  /\ 0 <= survived_count l /\ 0 <= lost_count l /\ 0 <= unknown_count l.
Proof.
  unfold survived_count, lost_count, unknown_count, known_count, is_survivor,
    is_lost.
  induction 1 as [| r l Hr Hl IH]; [repeat split; unfold len; simpl; lia |].
  cbn [filter].
  destruct Hr as [E | [E | E]]; rewrite E; cbn [notna negb];
    rewrite ?len_cons; lia.
Qed.

Lemma round_pct_outcome (df : DataFrame) (sub : list Row) :
  round_pct (mean_int {| columns := columns df; rows := sub |} Survived)
  = outcome_pct sub.
Proof.
  unfold round_pct, mean_int, outcome_pct, values. cbn [rows].
  rewrite <- len_known.
  destruct (somes (map Survived sub)) as [| v vs] eqn:E; [reflexivity |].
  rewrite len_cons.
  destruct (Z.eqb_spec (1 + len vs) 0) as [H | H];
    [pose proof (len_nonneg vs); lia | reflexivity].
Qed.

(** ** [/api/stats]: the counts *)

Lemma percent_in_range (a t : Z) :
  0 <= a <= t -> 0 < t -> (0 <= inject_Z a / inject_Z t * 100 <= 100)%Q.
Proof.
  intros Ha Ht. destruct t as [| p | p]; try lia.
  unfold Qle, Qdiv, Qmult, Qinv, inject_Z. simpl. split; nia.
Qed.

Lemma py_round_nd_percent (x : Q) :
  (0 <= x <= 100)%Q -> (0 <= py_round_nd x 1 <= 100)%Q.
Proof.
  intros [H0 H100]. split.
  - apply (Qle_trans _ (py_round_nd 0 1)); [now vm_compute |].
    now apply py_round_nd_mono.
  - apply (Qle_trans _ (py_round_nd 100 1)); [now apply py_round_nd_mono |].
    now vm_compute.
Qed.

(** X1.  On a table whose [Survived] is a 0/1 flag, [stats] counts the rows
    that survived as survivors and every other row as lost, the rows with
    no recorded outcome included; the survivors never exceed the total and
    the rate lies between 0 and 100. *)
Theorem stats_outcome_counts (df : DataFrame) :
  has_column df "Survived" = true ->
  Forall survived_flag (rows df) ->
  exists s,
    stats df = Ok s
    /\ total s = len (rows df)
    /\ survivors s = survived_count (rows df)
    /\ lost s = lost_count (rows df) + unknown_count (rows df)
    /\ 0 <= survivors s <= total s
    /\ (0 <= surv_rate s <= 100)%Q.
Proof.
  intros HS Hflag.
  destruct (outcome_split (rows df) Hflag) as [Hlen [_ [H1 [H2 H3]]]].
  assert (Hsum : sum_int df Survived = survived_count (rows df))
    by now apply Zsum_survived.
  unfold stats. rewrite (getitem_present df cSurvived HS). cbn [bind].
  change (col_of cSurvived) with Survived. rewrite Hsum.
  destruct (Z.eqb_spec (len (rows df)) 0) as [E | E]; cbn [bind].
  - eexists. split; [reflexivity |]. cbn.
    repeat split; try lia; now vm_compute.
  - rewrite (truediv_nonzero _ _ E). cbn [bind].
    eexists. split; [reflexivity |]. cbn.
    split; [reflexivity |]. split; [reflexivity |]. split; [lia |].
    split; [lia |].
    apply py_round_nd_percent, percent_in_range; lia.
Qed.

Lemma stats_outcome_counts_witness :
  exists s,
    stats one_unknown_outcome = Ok s
    /\ total s = len (rows one_unknown_outcome)
    /\ survivors s = survived_count (rows one_unknown_outcome)
    /\ lost s = lost_count (rows one_unknown_outcome)
                + unknown_count (rows one_unknown_outcome)
    /\ 0 <= survivors s <= total s
    /\ (0 <= surv_rate s <= 100)%Q.
Proof.
  apply (stats_outcome_counts one_unknown_outcome); [reflexivity |].
  repeat (apply Forall_cons; [unfold survived_flag; simpl; auto |]).
  apply Forall_nil.
Defined.

(** ** [/api/by-gender] *)

Lemma by_gender_step_outcome (df : DataFrame) (sl : string * string) :
  has_column df "Sex" = true ->
  has_column df "Survived" = true ->
  by_gender_step df sl = Ok (gender_outcome df sl).
Proof.
  intros HX HS. destruct sl as [sex label]. unfold by_gender_step, gender_outcome.
  rewrite (getitem_present df cSex HX). cbn [bind fst snd].
  rewrite (getitem_present (loc df (eq_str (col_of cSex) sex)) cSurvived HS).
  cbn [bind]. change (rows (loc df (eq_str (col_of cSex) sex)))
    with (sex_rows df sex).
  now destruct (len (sex_rows df sex) =? 0).
Qed.

Lemma two_groups_le (df : DataFrame) :
  len (sex_rows df "female") + len (sex_rows df "male") <= len (rows df).
Proof.
  pose proof (group_sizes_le Sex ["female"; "male"]%string (rows df)) as H.
  cbn [map] in H. rewrite !Zsum_cons in H.
  change (Zsum []) with 0 in H. unfold holds in H. unfold sex_rows.
  assert (Hnd : NoDup ["female"; "male"]%string).
  { repeat constructor; simpl; intuition discriminate. }
  specialize (H Hnd). lia.
Qed.

(** X2.  On a table that has the ["Sex"] and ["Survived"] columns
    [by_gender] never fails.  It reports the sexes female and male, in that
    order, that have a row; for each, survived + lost is the number of rows
    of that sex, so the groups together never count more rows than the
    table has.  Where [Survived] is a 0/1 flag, a row with no recorded
    outcome is counted as lost. *)
Theorem by_gender_groups (df : DataFrame) :
  has_column df "Sex" = true ->
  has_column df "Survived" = true ->
  exists out,
    by_gender df = Ok out
    /\ map ge_sex out
       = filter (fun s => negb (len (sex_rows df s) =? 0))
                ["female"; "male"]%string
    /\ (forall e, In e out ->
          ge_survived e + ge_lost e = len (sex_rows df (ge_sex e))
          /\ 0 < len (sex_rows df (ge_sex e))
          /\ (Forall survived_flag (rows df) ->
              ge_survived e = survived_count (sex_rows df (ge_sex e))
              /\ ge_lost e = lost_count (sex_rows df (ge_sex e))
                             + unknown_count (sex_rows df (ge_sex e))))
    /\ Zsum (map (fun e => ge_survived e + ge_lost e) out) <= len (rows df).
Proof.
  intros HX HS. exists (somes (map (gender_outcome df) gender_labels)).
  split.
  { unfold by_gender. apply collect_ok. intros sl _.
    now apply by_gender_step_outcome. }
  assert (Hentry : forall e, In e (somes (map (gender_outcome df) gender_labels)) ->
            ge_survived e + ge_lost e = len (sex_rows df (ge_sex e))
            /\ 0 < len (sex_rows df (ge_sex e))
            /\ ge_survived e = Zsum (somes (map Survived (sex_rows df (ge_sex e))))).
  { intros e He. apply in_somes_map in He. destruct He as [sl [_ He]].
    unfold gender_outcome in He.
    destruct (Z.eqb_spec (len (sex_rows df (fst sl))) 0) as [E | E];
      [discriminate |].
    injection He as <-. cbn [ge_sex ge_survived ge_lost].
    pose proof (len_nonneg (sex_rows df (fst sl))).
    repeat split; lia. }
  split; [| split].
  - unfold gender_labels, gender_outcome. cbn [map fst snd filter].
    destruct (len (sex_rows df "female") =? 0), (len (sex_rows df "male") =? 0);
      reflexivity.
  - intros e He. destruct (Hentry e He) as [H1 [H2 H3]].
    split; [exact H1 |]. split; [exact H2 |]. intros Hflag.
    assert (Hfl : Forall survived_flag (sex_rows df (ge_sex e))).
    { apply Forall_forall. intros r Hr. apply filter_In in Hr.
      rewrite Forall_forall in Hflag. now apply Hflag. }
    destruct (outcome_split _ Hfl) as [Hlen _].
    rewrite (Zsum_survived _ Hfl) in H3. split; [exact H3 | lia].
  - assert (Hs : Zsum (map (fun e => ge_survived e + ge_lost e)
                          (somes (map (gender_outcome df) gender_labels)))
                 = Zsum (map (fun sl => len (sex_rows df (fst sl))) gender_labels)).
    { apply (Zsum_nonempty_groups
               (fun sl => len (sex_rows df (fst sl)))
               (fun sl => {| ge_sex := fst sl; ge_label := snd sl;
                             ge_survived := Zsum (somes (map Survived (sex_rows df (fst sl))));
                             ge_lost := len (sex_rows df (fst sl))
                                        - Zsum (somes (map Survived (sex_rows df (fst sl)))) |})).
      intros sl. cbn [ge_survived ge_lost]. lia. }
    rewrite Hs. unfold gender_labels. cbn [map fst]. rewrite !Zsum_cons.
    change (Zsum []) with 0. pose proof (two_groups_le df). lia.
Qed.

Lemma by_gender_groups_witness :
  exists out,
    by_gender one_unknown_outcome = Ok out
    /\ map ge_sex out
       = filter (fun s => negb (len (sex_rows one_unknown_outcome s) =? 0))
                ["female"; "male"]%string
    /\ (forall e, In e out ->
          ge_survived e + ge_lost e
          = len (sex_rows one_unknown_outcome (ge_sex e))
          /\ 0 < len (sex_rows one_unknown_outcome (ge_sex e))
          /\ (Forall survived_flag (rows one_unknown_outcome) ->
              ge_survived e
              = survived_count (sex_rows one_unknown_outcome (ge_sex e))
              /\ ge_lost e
                 = lost_count (sex_rows one_unknown_outcome (ge_sex e))
                   + unknown_count (sex_rows one_unknown_outcome (ge_sex e))))
    /\ Zsum (map (fun e => ge_survived e + ge_lost e) out)
       <= len (rows one_unknown_outcome).
Proof. apply (by_gender_groups one_unknown_outcome); reflexivity. Defined.

(** ** [/api/by-class] *)

Lemma by_class_step_outcome (df : DataFrame) (cl : Z * string) :
  has_column df "Pclass" = true ->
  has_column df "Survived" = true ->
  by_class_step df cl = class_outcome df cl.
Proof.
  intros HP HS. destruct cl as [cls label]. unfold by_class_step, class_outcome.
  rewrite (getitem_present df cPclass HP). cbn [bind fst snd].
  rewrite (getitem_present (loc df (eq_int (col_of cPclass) cls)) cSurvived HS).
  cbn [bind]. change (rows (loc df (eq_int (col_of cPclass) cls)))
    with (class_rows df cls).
  destruct (len (class_rows df cls) =? 0); [reflexivity |].
  change (loc df (eq_int (col_of cPclass) cls))
    with {| columns := columns df; rows := class_rows df cls |}.
  change (col_of cSurvived) with Survived.
  now rewrite round_pct_outcome.
Qed.

Lemma by_class_unfold (df : DataFrame) :
  has_column df "Pclass" = true ->
  has_column df "Survived" = true ->
  by_class df = collect (class_outcome df) class_labels.
Proof.
  intros HP HS. unfold by_class. apply collect_ext. intros cl _.
  now apply by_class_step_outcome.
Qed.

Lemma three_classes_le (df : DataFrame) :
  len (class_rows df 1) + len (class_rows df 2) + len (class_rows df 3)
  <= len (rows df)
  /\ ((forall r, In r (rows df) -> in_some_class r = true) ->
      len (class_rows df 1) + len (class_rows df 2) + len (class_rows df 3)
      = len (rows df)).
Proof.
  unfold class_rows, in_some_class, eq_int.
  induction (rows df) as [| r l [IH1 IH2]]; [split; reflexivity |].
  assert (IH2' : (forall r0, In r0 (r :: l) ->
                    is_true (option_map (fun x => x =? 1) (Pclass r0))
                    || is_true (option_map (fun x => x =? 2) (Pclass r0))
                    || is_true (option_map (fun x => x =? 3) (Pclass r0)) = true) ->
                 len (filter (fun r => is_true (option_map (fun x => x =? 1) (Pclass r))) l)
                 + len (filter (fun r => is_true (option_map (fun x => x =? 2) (Pclass r))) l)
                 + len (filter (fun r => is_true (option_map (fun x => x =? 3) (Pclass r))) l)
                 = len l).
  { intros H. apply IH2. intros r0 Hr0. apply H. now right. }
  cbn [filter].
  split.
  - destruct (Pclass r) as [z |]; cbn [option_map is_true];
      [| rewrite len_cons; lia].
    destruct (Z.eqb_spec z 1), (Z.eqb_spec z 2), (Z.eqb_spec z 3);
      rewrite ?len_cons; lia.
  - intros H. specialize (IH2' H). specialize (H r (or_introl eq_refl)).
    destruct (Pclass r) as [z |]; cbn [option_map is_true] in H |- *;
      [| discriminate].
    destruct (Z.eqb_spec z 1), (Z.eqb_spec z 2), (Z.eqb_spec z 3);
      cbn [orb] in H; try discriminate; rewrite ?len_cons; lia.
Qed.

Lemma class_entries (df : DataFrame) :
  (forall c, In c [1; 2; 3] -> class_rows df c <> [] ->
             0 < known_count (class_rows df c)) ->
  forall cl, In cl class_labels ->
    class_outcome df cl
    = Ok (if len (class_rows df (fst cl)) =? 0 then None
          else Some {| ce_class := fst cl; ce_label := snd cl;
                       ce_total := len (class_rows df (fst cl));
                       ce_survived := Zsum (somes (map Survived (class_rows df (fst cl))));
                       ce_pct := py_round
                                   (inject_Z (Zsum (somes (map Survived (class_rows df (fst cl)))))
                                    / inject_Z (known_count (class_rows df (fst cl))) * 100) |}).
Proof.
  intros Hknown cl Hcl. unfold class_outcome.
  destruct (Z.eqb_spec (len (class_rows df (fst cl))) 0) as [E | E];
    [reflexivity |].
  assert (Hc : In (fst cl) [1; 2; 3]).
  { unfold class_labels in Hcl. simpl in Hcl.
    destruct Hcl as [<- | [<- | [<- | []]]]; simpl; auto. }
  assert (Hne : class_rows df (fst cl) <> [])
    by (intros H; apply E; now rewrite H).
  pose proof (Hknown _ Hc Hne) as Hk. unfold outcome_pct.
  destruct (Z.eqb_spec (known_count (class_rows df (fst cl))) 0); [lia |].
  reflexivity.
Qed.

(** X3.  On a table that has the ["Pclass"] and ["Survived"] columns, and
    where every class in 1..3 that has a row has a row with a known outcome,
    [by_class] reports the classes that have a row, in ascending order, each
    with the number of its rows and a percentage nearest to 100 * survived
    over the rows with a known outcome.  The totals add up to at most the
    size of the table, and to exactly that size when every row has a class
    in 1..3. *)
Theorem by_class_groups (df : DataFrame) :
  has_column df "Pclass" = true ->
  has_column df "Survived" = true ->
  (forall c, In c [1; 2; 3] -> class_rows df c <> [] ->
             0 < known_count (class_rows df c)) ->
  exists out,
    by_class df = Ok out
    /\ map ce_class out
       = filter (fun c => negb (len (class_rows df c) =? 0)) [1; 2; 3]
    /\ (forall e, In e out ->
          ce_total e = len (class_rows df (ce_class e))
          /\ 0 < ce_total e
          /\ ce_survived e
             = Zsum (somes (map Survived (class_rows df (ce_class e))))
          /\ nearest_percent (ce_survived e)
                             (known_count (class_rows df (ce_class e)))
                             (ce_pct e))
    /\ Zsum (map ce_total out) <= len (rows df)
    /\ ((forall r, In r (rows df) -> in_some_class r = true) ->
        Zsum (map ce_total out) = len (rows df)).
Proof.
  intros HP HS Hknown.
  set (mk := fun cl : Z * string =>
               {| ce_class := fst cl; ce_label := snd cl;
                  ce_total := len (class_rows df (fst cl));
                  ce_survived := Zsum (somes (map Survived (class_rows df (fst cl))));
                  ce_pct := py_round
                              (inject_Z (Zsum (somes (map Survived (class_rows df (fst cl)))))
                               / inject_Z (known_count (class_rows df (fst cl))) * 100) |}).
  set (h := fun cl : Z * string =>
              if len (class_rows df (fst cl)) =? 0 then None else Some (mk cl)).
  exists (somes (map h class_labels)).
  split.
  { rewrite by_class_unfold by assumption. apply collect_ok.
    intros cl Hcl. now apply class_entries. }
  assert (Hsum : Zsum (map ce_total (somes (map h class_labels)))
                 = len (class_rows df 1) + len (class_rows df 2)
                   + len (class_rows df 3)).
  { unfold h. rewrite (Zsum_nonempty_groups
                         (fun cl => len (class_rows df (fst cl))) mk ce_total)
      by reflexivity.
    unfold class_labels. cbn [map fst]. rewrite !Zsum_cons.
    change (Zsum []) with 0. lia. }
  destruct (three_classes_le df) as [Hle Heq].
  split; [| split; [| split]].
  - unfold h, class_labels. cbn [map fst filter].
    destruct (len (class_rows df 1) =? 0), (len (class_rows df 2) =? 0),
             (len (class_rows df 3) =? 0); reflexivity.
  - intros e He. apply in_somes_map in He. destruct He as [cl [Hcl He]].
    unfold h in He.
    destruct (Z.eqb_spec (len (class_rows df (fst cl))) 0) as [E | E];
      [discriminate |].
    injection He as <-. unfold mk. cbn [ce_class ce_total ce_survived ce_pct].
    pose proof (len_nonneg (class_rows df (fst cl))).
    split; [reflexivity |]. split; [lia |]. split; [reflexivity |].
    apply py_round_pct_nearest. apply Hknown.
    + unfold class_labels in Hcl. simpl in Hcl.
      destruct Hcl as [<- | [<- | [<- | []]]]; simpl; auto.
    + intros H0. apply E. now rewrite H0.
  - rewrite Hsum. exact Hle.
  - intros Hall. rewrite Hsum. now apply Heq.
Qed.

Lemma by_class_groups_witness :
  exists out,
    by_class three_passengers = Ok out
    /\ map ce_class out
       = filter (fun c => negb (len (class_rows three_passengers c) =? 0))
                [1; 2; 3]
    /\ (forall e, In e out ->
          ce_total e = len (class_rows three_passengers (ce_class e))
          /\ 0 < ce_total e
          /\ ce_survived e
             = Zsum (somes (map Survived
                              (class_rows three_passengers (ce_class e))))
          /\ nearest_percent
               (ce_survived e)
               (known_count (class_rows three_passengers (ce_class e)))
               (ce_pct e))
    /\ Zsum (map ce_total out) <= len (rows three_passengers)
    /\ ((forall r, In r (rows three_passengers) -> in_some_class r = true) ->
        Zsum (map ce_total out) = len (rows three_passengers)).
Proof.
  apply (by_class_groups three_passengers); [reflexivity | reflexivity |].
  intros c Hc. simpl in Hc.
  destruct Hc as [<- | [<- | [<- | []]]]; vm_compute; intros H;
    try reflexivity; exfalso; now apply H.
Defined.

Lemma outcome_step_cases {B : Type} (sub : list Row) (mk : Z -> B) :
  (if len sub =? 0 then Ok None
   else pct <- outcome_pct sub ;; Ok (Some (mk pct)))
  = Raise TypeError
  \/ exists o : option B,
       (if len sub =? 0 then Ok None
        else pct <- outcome_pct sub ;; Ok (Some (mk pct))) = Ok o.
Proof.
  destruct (len sub =? 0); [right; eexists; reflexivity |].
  unfold outcome_pct. destruct (known_count sub =? 0);
    [now left | right; eexists; reflexivity].
Qed.

Lemma outcome_step_raises {B : Type} (sub : list Row) (mk : Z -> B) :
  sub <> [] -> known_count sub = 0 ->
  (if len sub =? 0 then Ok None
   else pct <- outcome_pct sub ;; Ok (Some (mk pct)))
  = Raise TypeError.
Proof.
  intros Hne Hk.
  destruct (Z.eqb_spec (len sub) 0) as [E | E];
    [apply len_zero_iff in E; contradiction |].
  unfold outcome_pct. now rewrite Hk.
Qed.

(** X4.  When some class in 1..3 has rows but none of them has a recorded
    outcome, [by_class] fails with [TypeError] (the mean of the outcomes is
    missing and cannot be rounded); the other classes are not reported
    either. *)
Theorem by_class_no_outcome (df : DataFrame) (c : Z) :
  has_column df "Pclass" = true ->
  has_column df "Survived" = true ->
  In c [1; 2; 3] ->
  class_rows df c <> [] ->
  known_count (class_rows df c) = 0 ->
  by_class df = Raise TypeError.
Proof.
  intros HP HS Hc Hne Hk. rewrite by_class_unfold by assumption.
  apply collect_raise.
  - intros cl _. unfold class_outcome. apply outcome_step_cases.
  - assert (Hcl : exists label, In (c, label) class_labels).
    { unfold class_labels. simpl in Hc.
      destruct Hc as [<- | [<- | [<- | []]]]; eexists; simpl; eauto. }
    destruct Hcl as [label Hcl]. exists (c, label). split; [exact Hcl |].
    unfold class_outcome. cbn [fst snd]. now apply outcome_step_raises.
Qed.

Lemma by_class_no_outcome_witness :
  by_class first_class_unknown = Raise TypeError.
Proof.
  apply (by_class_no_outcome first_class_unknown 1);
    [reflexivity | reflexivity | simpl; auto | discriminate | reflexivity].
Defined.

(** ** [/api/by-age-group]: what is counted *)

Lemma collect_map_ext {A B C : Type} (f : A -> result (option B)) (g : C -> A)
  (h : C -> result (option B)) (l : list C) :
  (forall c, In c l -> f (g c) = h c) -> collect f (map g l) = collect h l.
Proof.
  induction l as [| c l IH]; intros H; [reflexivity |].
  cbn [map collect]. rewrite (H c) by now left.
  rewrite IH by (intros; apply H; now right). reflexivity.
Qed.

Lemma by_age_group_step_outcome (df : DataFrame) (b : string * (Z * Z)) :
  In b age_buckets ->
  has_column df "Survived" = true ->
  by_age_group_step (aged df) (fst b) = bucket_outcome df b.
Proof.
  intros Hin HS. destruct b as [l [lo hi]].
  unfold by_age_group_step, bucket_outcome. cbn [fst snd].
  rewrite (getitem_present (loc (aged df) (eq_str grp l)) cSurvived)
    by (apply has_column_aged; exact HS).
  cbn [bind]. change (col_of cSurvived) with Survived.
  pose proof (rows_aged_bucket df l lo hi Hin) as Hrows.
  rewrite Hrows.
  destruct (len (filter (age_in lo hi) (rows df)) =? 0); [reflexivity |].
  unfold sum_int, values. rewrite Hrows.
  assert (Hm : mean_int (loc (aged df) (eq_str grp l)) Survived
               = mean_int {| columns := columns df;
                             rows := filter (age_in lo hi) (rows df) |} Survived).
  { unfold mean_int, values. now rewrite Hrows. }
  now rewrite Hm, round_pct_outcome.
Qed.

Lemma by_age_group_unfold (df : DataFrame) :
  has_column df "Age" = true ->
  has_column df "Survived" = true ->
  by_age_group df = collect (bucket_outcome df) age_buckets.
Proof.
  intros HA HS. unfold by_age_group. rewrite HA. cbn [negb].
  change (collect (by_age_group_step (aged df)) (map fst age_buckets)
          = collect (bucket_outcome df) age_buckets).
  apply collect_map_ext. intros b Hb. now apply by_age_group_step_outcome.
Qed.

(** Every row is in at most one bucket, and in one exactly when its age lies
    in (0, 120]. *)
Lemma age_in_one_bucket (r : Row) :
  Z.b2z (age_in 0 12 r) + Z.b2z (age_in 12 18 r) + Z.b2z (age_in 18 35 r)
  + Z.b2z (age_in 35 60 r) + Z.b2z (age_in 60 120 r)
  = Z.b2z (age_in 0 120 r).
Proof.
  unfold age_in, Qltb. destruct (Age r) as [a |]; [| reflexivity].
  destruct (Qle_bool a (inject_Z 0)) eqn:E0, (Qle_bool a (inject_Z 12)) eqn:E12,
           (Qle_bool a (inject_Z 18)) eqn:E18, (Qle_bool a (inject_Z 35)) eqn:E35,
           (Qle_bool a (inject_Z 60)) eqn:E60, (Qle_bool a (inject_Z 120)) eqn:E120;
    cbn [negb andb Z.b2z]; try lia;
    exfalso; qle_to_order; unfold inject_Z in *; lra.
Qed.

Lemma buckets_partition (l : list Row) :
  Zsum (map (fun b : string * (Z * Z) =>
               len (filter (age_in (fst (snd b)) (snd (snd b))) l))
            age_buckets)
  = len (filter (age_in 0 120) l).
Proof.
  unfold age_buckets. cbn [map fst snd]. rewrite !Zsum_cons.
  change (Zsum []) with 0.
  induction l as [| r l IH]; [reflexivity |].
  cbn [filter]. pose proof (age_in_one_bucket r) as H.
  destruct (age_in 0 12 r), (age_in 12 18 r), (age_in 18 35 r),
           (age_in 35 60 r), (age_in 60 120 r), (age_in 0 120 r);
    cbn [Z.b2z] in H; rewrite ?len_cons; lia.
Qed.

(** X5.  On a table that has the ["Age"] and ["Survived"] columns, and where
    every bucket that has a row has a row with a known outcome, the totals
    [by_age_group] reports add up to the number of rows whose age lies in
    (0, 120]: a row with no age, with an age of 0 or less, or with an age
    above 120 is counted in no group. *)
Theorem by_age_group_totals (df : DataFrame) :
  has_column df "Age" = true ->
  has_column df "Survived" = true ->
  outcome_known_per_bucket df ->
  exists out,
    by_age_group df = Ok out
    /\ Zsum (map ae_total out) = len (filter (age_in 0 120) (rows df))
    /\ Zsum (map ae_total out) <= len (rows df).
Proof.
  intros HA HS Hknown.
  set (mk := fun b : string * (Z * Z) =>
               let sub := filter (age_in (fst (snd b)) (snd (snd b))) (rows df) in
               {| ae_group := fst b; ae_total := len sub;
                  ae_survived := Zsum (somes (map Survived sub));
                  ae_pct := py_round (inject_Z (Zsum (somes (map Survived sub)))
                                      / inject_Z (known_count sub) * 100) |}).
  set (size := fun b : string * (Z * Z) =>
                 len (filter (age_in (fst (snd b)) (snd (snd b))) (rows df))).
  exists (somes (map (fun b => if size b =? 0 then None else Some (mk b))
                     age_buckets)).
  assert (Hsum : Zsum (map ae_total
                         (somes (map (fun b => if size b =? 0 then None
                                               else Some (mk b)) age_buckets)))
                 = len (filter (age_in 0 120) (rows df))).
  { rewrite (Zsum_nonempty_groups size mk ae_total) by reflexivity.
    apply buckets_partition. }
  split; [| split; [exact Hsum |]].
  - rewrite by_age_group_unfold by assumption. apply collect_ok.
    intros [l [lo hi]] Hb. unfold bucket_outcome, size, mk. cbn [fst snd].
    destruct (Z.eqb_spec (len (filter (age_in lo hi) (rows df))) 0) as [E | E];
      [reflexivity |].
    assert (Hne : filter (age_in lo hi) (rows df) <> [])
      by (intros H; apply E; now rewrite H).
    pose proof (Hknown l lo hi Hb Hne) as Hk. unfold outcome_pct.
    destruct (Z.eqb_spec (known_count (filter (age_in lo hi) (rows df))) 0);
      [lia | reflexivity].
  - rewrite Hsum. apply len_filter_le.
Qed.

Lemma by_age_group_totals_witness :
  exists out,
    by_age_group ages_off_range = Ok out
    /\ Zsum (map ae_total out)
       = len (filter (age_in 0 120) (rows ages_off_range))
    /\ Zsum (map ae_total out) <= len (rows ages_off_range).
Proof.
  apply (by_age_group_totals ages_off_range); [reflexivity | reflexivity |].
  intros l lo hi Hin. simpl in Hin.
  repeat (destruct Hin as [Hin | Hin]; [injection Hin as <- <- <- |]);
    try contradiction; vm_compute; intros H; try reflexivity;
    exfalso; now apply H.
Defined.

(** X6.  When some age bucket has rows but none of them has a recorded
    outcome, [by_age_group] fails with [TypeError]. *)
Theorem by_age_group_bucket_without_outcome (df : DataFrame)
  (l : string) (lo hi : Z) :
  has_column df "Age" = true ->
  has_column df "Survived" = true ->
  In (l, (lo, hi)) age_buckets ->
  filter (age_in lo hi) (rows df) <> [] ->
  known_count (filter (age_in lo hi) (rows df)) = 0 ->
  by_age_group df = Raise TypeError.
Proof.
  intros HA HS Hb Hne Hk. rewrite by_age_group_unfold by assumption.
  apply collect_raise.
  - intros b _. unfold bucket_outcome. apply outcome_step_cases.
  - exists (l, (lo, hi)). split; [exact Hb |].
    unfold bucket_outcome. cbn [fst snd]. now apply outcome_step_raises.
Qed.

Lemma by_age_group_bucket_without_outcome_witness :
  by_age_group outcome_unknown = Raise TypeError.
Proof.
  apply (by_age_group_bucket_without_outcome outcome_unknown
           "Young Adult (19–35)" 18 35);
    [reflexivity | reflexivity | simpl; auto | discriminate | reflexivity].
Defined.

(** ** [/api/by-port]: no failure *)

(** X7.  [by_port] never fails: the division by the table size is reached
    only for a group, which has a row.  Without a port column, and on a
    table with no rows, it reports nothing. *)
Theorem by_port_never_raises (df : DataFrame) :
  exists out,
    by_port df = Ok out
    /\ (has_column df (col_name (_port_col df)) = false -> out = [])
    /\ (rows df = [] -> out = []).
Proof.
  destruct (has_column df (col_name (_port_col df))) eqn:Hcol.
  - eexists. split; [now apply by_port_unfold |].
    split; [discriminate |]. intros Hrows.
    unfold values. rewrite Hrows. reflexivity.
  - exists []. split; [now apply by_port_no_column |]. split; reflexivity.
Qed.

(** ** [/api/passengers]: what a page holds *)

Lemma is_true_kand (a b : option bool) :
  is_true (kand a b) = true <-> is_true a = true /\ is_true b = true.
Proof.
  destruct a as [[|] |], b as [[|] |]; simpl; intuition discriminate.
Qed.

Lemma In_iloc_slice {A : Type} (l : list A) (a b : Z) (x : A) :
  0 <= a -> a <= b -> In x (iloc_slice l a b) -> In x l.
Proof.
  intros Ha Hab Hx. rewrite iloc_slice_nonneg in Hx by assumption.
  rewrite <- (firstn_skipn (Z.to_nat a) l). apply in_or_app. right.
  rewrite <- (firstn_skipn (Z.to_nat (b - a)) (skipn (Z.to_nat a) l)).
  apply in_or_app. now left.
Qed.

Section PassengerRows.

Variable sort_values : string -> bool -> list Row -> list Row.
Variable str_lower : string -> string.
Variable re_search : string -> option (string -> bool).
Variable py_int : string -> option Z.

Hypothesis sort_values_perm :
  forall by_ ascending l, Permutation (sort_values by_ ascending l) l.

Local Abbreviation passengers' := (passengers sort_values str_lower re_search py_int).
Local Abbreviation row_mask' := (row_mask str_lower re_search py_int).

(** X8.  A page holds [min(per_page, total - (page - 1) * per_page)] rows for
    the page the route answers with: never more than [per_page], all of
    [per_page] on every page before the last, and at least one row whenever
    the selection is not empty, also when the requested page is beyond the
    last. *)
Theorem passengers_page_size (q survived cls : string) (page per_page : Z)
  (sort_by sort_dir : string) (df : DataFrame) (mask : Row -> option bool) :
  1 <= page -> 1 <= per_page <= 200 ->
  row_mask' df q survived cls = Ok mask ->
  exists r,
    passengers' q survived cls page per_page sort_by sort_dir df = Ok r
    /\ len (pg_rows r)
       = Z.min per_page (pg_total r - (pg_page r - 1) * per_page)
    /\ len (pg_rows r) <= per_page
    /\ (pg_page r < pg_total_pages r -> len (pg_rows r) = per_page)
    /\ (0 < pg_total r -> 0 < len (pg_rows r)).
Proof.
  intros Hpage Hpp Hmask. eexists.
  split; [apply passengers_ok; eassumption |].
  cbn [pg_rows pg_total pg_page pg_total_pages].
  set (fl := ordered sort_values df mask sort_by sort_dir).
  set (c := math_ceil (inject_Z (len fl) / inject_Z per_page)).
  set (tp := Z.max 1 c). set (p := Z.min page tp).
  pose proof (math_ceil_spec (len fl) per_page ltac:(lia)) as Hc.
  cbv zeta in Hc. fold c in Hc. pose proof (len_nonneg fl) as Hfl.
  assert (Hp : 1 <= p <= tp) by (unfold p, tp; lia).
  assert (Hlen : len (map (display df)
                          (iloc_slice fl ((p - 1) * per_page) (p * per_page)))
                 = Z.min per_page (len fl - (p - 1) * per_page)).
  { rewrite iloc_slice_nonneg by nia. unfold len.
    rewrite length_map, length_firstn, length_skipn.
    assert ((p - 1) * per_page <= len fl).
    { destruct (Z.eq_dec (len fl) 0) as [E | E]; [| unfold tp in Hp; nia].
      assert (c <= 1) by nia. unfold tp in Hp. nia. }
    unfold len in *. nia. }
  rewrite Hlen. split; [reflexivity |]. split; [lia |]. split.
  - intros Hlt. assert (p <= c - 1) by (unfold tp in Hlt, Hp; lia). nia.
  - intros Hpos.
    assert ((p - 1) * per_page < len fl).
    { assert (1 <= c) by nia. unfold tp in Hp. nia. }
    lia.
Qed.

Lemma page_rows_from_table (q survived cls : string) (page per_page : Z)
  (sort_by sort_dir : string) (df : DataFrame) (mask : Row -> option bool)
  (r : Page) (d : DisplayRow) :
  1 <= page -> 1 <= per_page <= 200 ->
  row_mask' df q survived cls = Ok mask ->
  passengers' q survived cls page per_page sort_by sort_dir df = Ok r ->
  In d (pg_rows r) ->
  exists row, In row (rows df) /\ is_true (mask row) = true
              /\ d = display df row.
Proof.
  intros Hpage Hpp Hmask Hr Hd.
  rewrite (passengers_ok sort_values str_lower re_search py_int
             q survived cls page per_page sort_by sort_dir df mask)
    in Hr by assumption.
  injection Hr as <-. cbn [pg_rows] in Hd.
  apply in_map_iff in Hd. destruct Hd as [row [<- Hrow]].
  exists row. split; [| split; [| reflexivity]].
  - apply In_iloc_slice in Hrow.
    + apply (Permutation_in _ (ordered_perm sort_values sort_values_perm
                                 df mask sort_by sort_dir)) in Hrow.
      now apply filter_In in Hrow.
    + pose proof (math_ceil_spec
                    (len (ordered sort_values df mask sort_by sort_dir))
                    per_page ltac:(lia)). nia.
    + nia.
  - apply In_iloc_slice in Hrow.
    + apply (Permutation_in _ (ordered_perm sort_values sort_values_perm
                                 df mask sort_by sort_dir)) in Hrow.
      now apply filter_In in Hrow.
    + nia.
    + nia.
Qed.

Lemma row_mask_filters (df : DataFrame) (q survived cls : string)
  (mask : Row -> option bool) (row : Row) :
  row_mask' df q survived cls = Ok mask ->
  is_true (mask row) = true ->
  (survived = "survived"%string ->
   has_column df "Survived" = true /\ Survived row = Some 1)
  /\ (survived = "lost"%string ->
      has_column df "Survived" = true /\ Survived row = Some 0)
  /\ (cls <> "all"%string ->
      has_column df "Pclass" = true
      /\ exists c, py_int cls = Some c /\ Pclass row = Some c).
Proof.
  unfold row_mask. intros Hmask Hrow.
  destruct (if String.eqb q "" then Ok (fun _ : Row => Some true)
            else tm <- text_mask str_lower re_search df (str_lower q)
                         [cName; cHometown; cDestination] (fun _ => false) ;;
                 Ok (fun r => kand (Some true) (Some (tm r))))
    as [m1 |]; [| discriminate].
  cbn [bind] in Hmask.
  assert (Hint : forall v x, is_true (eq_int Survived v x) = true ->
                             Survived x = Some v).
  { intros v x. unfold eq_int. destruct (Survived x) as [z |]; [| discriminate].
    cbn. destruct (Z.eqb_spec z v); [now subst | discriminate]. }
  assert (Hcls : forall v x, is_true (eq_int Pclass v x) = true ->
                             Pclass x = Some v).
  { intros v x. unfold eq_int. destruct (Pclass x) as [z |]; [| discriminate].
    cbn. destruct (Z.eqb_spec z v); [now subst | discriminate]. }
  destruct (String.eqb_spec survived "survived") as [E1 | E1];
    [| destruct (String.eqb_spec survived "lost") as [E2 | E2]].
  - unfold getitem in Hmask. cbn [col_name col_of cSurvived cPclass] in Hmask.
    destruct (has_column df "Survived") eqn:HS; [| discriminate].
    cbn [bind col_name col_of cSurvived cPclass] in Hmask.
    destruct (String.eqb_spec cls "all") as [E3 | E3].
    + injection Hmask as <-. apply is_true_kand in Hrow. destruct Hrow as [_ Hs].
      split; [intros _; split; [reflexivity | now apply Hint] |].
      split; [intros H; subst; discriminate | contradiction].
    + destruct (has_column df "Pclass") eqn:HP; [| discriminate].
      cbn [bind col_name col_of cSurvived cPclass] in Hmask. destruct (py_int cls) as [c |]; [| discriminate].
      cbn [bind] in Hmask. injection Hmask as <-.
      apply is_true_kand in Hrow. destruct Hrow as [Hrow Hc].
      apply is_true_kand in Hrow. destruct Hrow as [_ Hs].
      split; [intros _; split; [reflexivity | now apply Hint] |].
      split; [intros H; subst; discriminate |].
      intros _. split; [reflexivity |]. exists c. split; [reflexivity | now apply Hcls].
  - unfold getitem in Hmask. cbn [col_name col_of cSurvived cPclass] in Hmask.
    destruct (has_column df "Survived") eqn:HS; [| discriminate].
    cbn [bind col_name col_of cSurvived cPclass] in Hmask.
    destruct (String.eqb_spec cls "all") as [E3 | E3].
    + injection Hmask as <-. apply is_true_kand in Hrow. destruct Hrow as [_ Hs].
      split; [intros H; subst; discriminate |].
      split; [intros _; split; [reflexivity | now apply Hint] | contradiction].
    + destruct (has_column df "Pclass") eqn:HP; [| discriminate].
      cbn [bind col_name col_of cSurvived cPclass] in Hmask. destruct (py_int cls) as [c |]; [| discriminate].
      cbn [bind] in Hmask. injection Hmask as <-.
      apply is_true_kand in Hrow. destruct Hrow as [Hrow Hc].
      apply is_true_kand in Hrow. destruct Hrow as [_ Hs].
      split; [intros H; subst; discriminate |].
      split; [intros _; split; [reflexivity | now apply Hint] |].
      intros _. split; [reflexivity |]. exists c. split; [reflexivity | now apply Hcls].
  - cbn [bind] in Hmask.
    split; [contradiction |]. split; [contradiction |].
    destruct (String.eqb_spec cls "all") as [E3 | E3]; [contradiction |].
    unfold getitem in Hmask. cbn [col_name col_of cSurvived cPclass] in Hmask.
    destruct (has_column df "Pclass") eqn:HP; [| discriminate].
    cbn [bind col_name col_of cSurvived cPclass] in Hmask. destruct (py_int cls) as [c |]; [| discriminate].
    cbn [bind] in Hmask. injection Hmask as <-.
    apply is_true_kand in Hrow. destruct Hrow as [_ Hc].
    intros _. split; [reflexivity |]. exists c. split; [reflexivity | now apply Hcls].
Qed.

(** X9.  The filters hold on every row of every page: with
    [survived = "survived"] each displayed row has survived = 1, with
    ["lost"] each has survived = 0, and with a class [cls] other than
    ["all"] each has that class. *)
Theorem passengers_rows_pass_filter (q survived cls : string)
  (page per_page : Z) (sort_by sort_dir : string) (df : DataFrame)
  (mask : Row -> option bool) :
  1 <= page -> 1 <= per_page <= 200 ->
  row_mask' df q survived cls = Ok mask ->
  exists r,
    passengers' q survived cls page per_page sort_by sort_dir df = Ok r
    /\ forall d, In d (pg_rows r) ->
         (survived = "survived"%string -> d_survived d = Some 1)
         /\ (survived = "lost"%string -> d_survived d = Some 0)
         /\ (cls <> "all"%string ->
             exists c, py_int cls = Some c /\ d_cls d = Some c).
Proof.
  intros Hpage Hpp Hmask. eexists.
  split; [apply passengers_ok; eassumption |].
  intros d Hd.
  destruct (page_rows_from_table q survived cls page per_page sort_by sort_dir
              df mask _ d Hpage Hpp Hmask
              (passengers_ok sort_values str_lower re_search py_int
                 q survived cls page per_page sort_by sort_dir df mask
                 Hpage Hpp Hmask) Hd)
    as [row [_ [Hrow ->]]].
  destruct (row_mask_filters df q survived cls mask row Hmask Hrow)
    as [H1 [H2 H3]].
  unfold display, row_get, _nan.
  cbn [d_survived d_cls col_name col_of cSurvived cPclass].
  split; [| split].
  - intros E. destruct (H1 E) as [-> ->]. reflexivity.
  - intros E. destruct (H2 E) as [-> ->]. reflexivity.
  - intros E. destruct (H3 E) as [-> [c [Hc ->]]]. now exists c.
Qed.

End PassengerRows.

(** ** [/api/passengers]: the sort field, the query and the errors *)

Section PassengerFilters.

Variable sort_values : string -> bool -> list Row -> list Row.
Variable str_lower : string -> string.
Variable re_search : string -> option (string -> bool).
Variable py_int : string -> option Z.

Local Abbreviation passengers' := (passengers sort_values str_lower re_search py_int).
Local Abbreviation row_mask' := (row_mask str_lower re_search py_int).

(** X10.  A sort field that is not a column of the table is ignored: the
    page is cut from the selected rows in table order, and the answer is
    the same for every sort direction and does not depend on how
    [sort_values] orders rows. *)
Theorem passengers_unknown_sort_field (q survived cls : string)
  (page per_page : Z) (sort_by sort_dir : string) (df : DataFrame)
  (mask : Row -> option bool) :
  has_column df sort_by = false ->
  1 <= page -> 1 <= per_page <= 200 ->
  row_mask' df q survived cls = Ok mask ->
  exists r,
    passengers' q survived cls page per_page sort_by sort_dir df = Ok r
    /\ pg_total r = len (rows (loc df mask))
    /\ pg_rows r
       = map (display df)
             (iloc_slice (rows (loc df mask)) ((pg_page r - 1) * per_page)
                         (pg_page r * per_page))
    /\ forall sort_values' sort_dir',
         passengers sort_values' str_lower re_search py_int
           q survived cls page per_page sort_by sort_dir' df = Ok r.
Proof.
  intros Hcol Hpage Hpp Hmask.
  assert (Hord : forall sv dir, ordered sv df mask sort_by dir = rows (loc df mask)).
  { intros sv dir. unfold ordered. rewrite has_column_loc, Hcol. reflexivity. }
  eexists. split; [apply passengers_ok; eassumption |].
  cbn [pg_total pg_rows pg_page]. rewrite !Hord.
  split; [reflexivity |]. split; [reflexivity |].
  intros sv' dir'.
  rewrite (passengers_ok sv' str_lower re_search py_int q survived cls page
             per_page sort_by dir' df mask) by assumption.
  cbv zeta. now rewrite !Hord.
Qed.


Lemma text_mask_no_columns (df : DataFrame) (ql : string)
  (cs : list (column string)) (tm : Row -> bool) :
  (forall c, In c cs -> has_column df (col_name c) = false) ->
  text_mask str_lower re_search df ql cs tm = Ok tm.
Proof.
  induction cs as [| c cs IH]; intros H; cbn [text_mask]; [reflexivity |].
  rewrite (H c) by now left. apply IH. intros c' Hc'. apply H. now right.
Qed.




Section WithPermutation.

Hypothesis sort_values_perm :
  forall by_ ascending l, Permutation (sort_values by_ ascending l) l.


(** X13.  On a table with none of the three text columns a non-empty query
    selects nothing and is not even compiled: the answer is the empty first
    page, whatever the query. *)
Theorem passengers_query_without_text_columns (q : string)
  (page per_page : Z) (sort_by sort_dir : string) (df : DataFrame) :
  q <> ""%string ->
  has_column df "Name" = false ->
  has_column df "Hometown" = false ->
  has_column df "Destination" = false ->
  1 <= page -> 1 <= per_page <= 200 ->
  passengers' q "all" "all" page per_page sort_by sort_dir df
  = Ok {| pg_total := 0; pg_page := 1; pg_per_page := per_page;
          pg_total_pages := 1; pg_rows := [] |}.
Proof.
  intros Hq HN HH HD Hpage Hpp.
  set (mask := fun r : Row => kand (Some true) (Some false)).
  assert (Hmask : row_mask' df q "all" "all" = Ok mask).
  { unfold row_mask. destruct (String.eqb_spec q ""); [contradiction |].
    rewrite text_mask_no_columns; [reflexivity |].
    intros c [<- | [<- | [<- | []]]]; assumption. }
  assert (Hfl : ordered sort_values df mask sort_by sort_dir = []).
  { unfold ordered, loc, mask. cbn [rows is_true kand].
    assert (Hnil : filter (fun _ : Row => false) (rows df) = []).
    { induction (rows df) as [| r l IH]; [reflexivity | exact IH]. }
    rewrite Hnil. destruct (has_column _ sort_by); [| reflexivity].
    apply Permutation_nil. symmetry. apply sort_values_perm. }
  rewrite (passengers_ok sort_values str_lower re_search py_int q "all" "all"
             page per_page sort_by sort_dir df mask) by assumption.
  cbv zeta. rewrite Hfl.
  assert (Hc : math_ceil (inject_Z (len (@nil Row)) / inject_Z per_page) = 0).
  { rewrite math_ceil_quotient by lia. reflexivity. }
  rewrite Hc. replace (Z.min page (Z.max 1 0)) with 1 by lia.
  assert (Hsl : forall a b, iloc_slice (@nil Row) a b = []).
  { intros a b. unfold iloc_slice. rewrite skipn_nil. apply firstn_nil. }
  rewrite Hsl. reflexivity.
Qed.

End WithPermutation.

End PassengerFilters.

(** ** [/api/heatmap]: which rows a reduced sample shows *)

Lemma sample_position_step (L n i : Z) :
  0 < n -> n < L -> 0 <= i -> i * L / n < (i + 1) * L / n.
Proof.
  intros Hn HL Hi.
  assert (H : i * L / n + 1 <= (i + 1) * L / n).
  { rewrite <- (Z.div_add (i * L) 1 n) by lia.
    apply Z.div_le_mono; [lia | nia]. }
  lia.
Qed.

Lemma sample_position_last (L n i : Z) :
  0 < n -> n < L -> 0 <= i < n -> i * L / n <= L - 2.
Proof.
  intros Hn HL Hi.
  assert (H : i * L / n < L - 1).
  { apply Z.div_lt_upper_bound; [lia | nia]. }
  lia.
Qed.

Section HeatmapSample.

Variable sort_values : string -> bool -> list Row -> list Row.
Hypothesis sort_values_perm :
  forall by_ ascending l, Permutation (sort_values by_ ascending l) l.

(** X14.  When the table has more rows with a fare than the [n >= 1] points
    asked for, the route returns exactly [n] points, taken from the rows
    sorted by fare at strictly increasing positions: no row is shown twice,
    the first point is the row at position 0, and every position is at most
    [len - 2], so the last row of the sorted table is never shown. *)
Theorem heatmap_downsample (n : Z) (df : DataFrame) :
  has_column df "Fare" = true ->
  has_column df "Survived" = true ->
  has_column df "Pclass" = true ->
  1 <= n <= 500 ->
  n < len (with_fare df) ->
  let hm := sort_values "Fare" true (with_fare df) in
  exists positions picked,
    heatmap sort_values n df = Ok (map point picked)
    /\ map Some picked = map (fun p => nth_error hm (Z.to_nat p)) positions
    /\ len picked = n
    /\ StronglySorted Z.lt positions
    /\ hd_error positions = Some 0
    /\ Forall (fun p => 0 <= p <= len hm - 2) positions.
Proof.
  intros HF HS HP Hn Hlen hm.
  rewrite heatmap_unfold by (assumption || lia). cbv zeta. fold hm.
  assert (HL : len hm = len (with_fare df)).
  { unfold len. f_equal. apply Permutation_length, sort_values_perm. }
  destruct (Z.gtb_spec (len hm) n) as [Hbig | Hsmall]; [| lia].
  assert (Hex : exists r0 : Row, True).
  { revert Hbig. generalize hm. intros [| r0 tl] Hbig;
      [unfold len in Hbig; simpl in Hbig; lia | now exists r0]. }
  destruct Hex as [r0 _].
  set (L := len hm) in *.
  set (pos := fun i : Z => i * L / n).
  set (pick := fun i : Z => nth (Z.to_nat (pos i)) hm r0).
  assert (Hpos_in : forall i, 0 <= i < n -> (Z.to_nat (pos i) < List.length hm)%nat).
  { intros i Hi. pose proof (sample_position L n i Hi ltac:(lia)) as Hp.
    unfold pos. set (p := i * L / n) in *. clearbody p.
    unfold L, len in Hp. lia. }
  assert (Hidx : mapM (sample_index L n) (range n) = Ok (map pos (range n))).
  { apply mapM_ok. intros i Hi. apply in_range in Hi.
    unfold sample_index. rewrite truediv_nonzero by lia. cbn [bind].
    f_equal. apply int_of_float_quotient; [nia | lia]. }
  assert (Hpick : iloc_list hm (map pos (range n)) = Ok (map pick (range n))).
  { apply mapM_map. intros i Hi. apply in_range in Hi.
    pose proof (sample_position L n i Hi ltac:(lia)) as Hp.
    unfold iloc_at. fold (pos i) in Hp.
    destruct (Z.ltb_spec (pos i) 0); [lia |].
    destruct (Z.ltb_spec (pos i) 0); [lia |].
    unfold pick. now rewrite (nth_error_nth' hm r0 (Hpos_in i Hi)). }
  exists (map pos (range n)), (map pick (range n)).
  rewrite Hidx. cbn [bind]. rewrite Hpick. cbn [bind].
  split; [reflexivity |].
  split.
  { rewrite !map_map. apply map_ext_in. intros i Hi.
    apply in_range in Hi. unfold pick. symmetry.
    apply nth_error_nth'. exact (Hpos_in i Hi). }
  split.
  { unfold len, range. rewrite !length_map, length_seq. lia. }
  split.
  { apply Sorted_StronglySorted; [intros a b c; apply Z.lt_trans |].
    unfold range. rewrite map_map. apply Sorted_map_seq.
    intros j _ Hj. unfold pos.
    replace (Z.of_nat (S j)) with (Z.of_nat j + 1) by lia.
    apply sample_position_step; lia. }
  split.
  { unfold range. destruct (Z.to_nat n) as [| k] eqn:Ek; [lia |].
    cbn [seq map hd_error]. unfold pos. now rewrite Z.mul_0_l, Z.div_0_l by lia. }
  apply Forall_forall. intros p Hp. apply in_map_iff in Hp.
  destruct Hp as [i [<- Hi]]. apply in_range in Hi.
  pose proof (sample_position L n i Hi ltac:(lia)) as Hp0.
  pose proof (sample_position_last L n i ltac:(lia) ltac:(lia) Hi).
  unfold pos. lia.
Qed.

End HeatmapSample.

(** ** The properties on sample tables *)

Lemma passengers_page_size_witness :
  exists r,
    passengers stable_sort_values lower_ascii literal_search int_of_digits
      "" "all" "all" 2 2 "Fare" "asc" three_passengers = Ok r
    /\ len (pg_rows r) = Z.min 2 (pg_total r - (pg_page r - 1) * 2)
    /\ len (pg_rows r) <= 2
    /\ (pg_page r < pg_total_pages r -> len (pg_rows r) = 2)
    /\ (0 < pg_total r -> 0 < len (pg_rows r)).
Proof.
  eapply (passengers_page_size stable_sort_values lower_ascii literal_search
            int_of_digits
            "" "all" "all" 2 2 "Fare" "asc" three_passengers);
    [lia | lia | reflexivity].
Defined.

Lemma passengers_rows_pass_filter_witness :
  exists r,
    passengers stable_sort_values lower_ascii literal_search int_of_digits
      "" "survived" "1" 1 50 "Fare" "desc" three_passengers = Ok r
    /\ forall d, In d (pg_rows r) ->
         ("survived"%string = "survived"%string -> d_survived d = Some 1)
         /\ ("survived"%string = "lost"%string -> d_survived d = Some 0)
         /\ ("1"%string <> "all"%string ->
             exists c, int_of_digits "1" = Some c /\ d_cls d = Some c).
Proof.
  eapply (passengers_rows_pass_filter stable_sort_values lower_ascii
            literal_search int_of_digits stable_sort_values_perm
            "" "survived" "1" 1 50 "Fare" "desc" three_passengers);
    [lia | lia | reflexivity].
Defined.

Lemma passengers_unknown_sort_field_witness :
  exists r,
    passengers stable_sort_values lower_ascii literal_search int_of_digits
      "" "survived" "all" 1 50 "id" "desc" three_passengers = Ok r
    /\ pg_total r = len (rows (loc three_passengers survived_mask))
    /\ pg_rows r
       = map (display three_passengers)
             (iloc_slice (rows (loc three_passengers survived_mask))
                         ((pg_page r - 1) * 50) (pg_page r * 50))
    /\ forall sort_values' sort_dir',
         passengers sort_values' lower_ascii literal_search int_of_digits
           "" "survived" "all" 1 50 "id" sort_dir' three_passengers = Ok r.
Proof.
  apply (passengers_unknown_sort_field stable_sort_values lower_ascii
           literal_search int_of_digits
           "" "survived" "all" 1 50 "id" "desc" three_passengers survived_mask);
    [reflexivity | lia | lia | reflexivity].
Defined.



Lemma passengers_query_without_text_columns_witness :
  passengers stable_sort_values lower_ascii no_pattern int_of_digits
    "(" "all" "all" 3 50 "Fare" "asc" numbers_only
  = Ok {| pg_total := 0; pg_page := 1; pg_per_page := 50;
          pg_total_pages := 1; pg_rows := [] |}.
Proof.
  apply (passengers_query_without_text_columns stable_sort_values lower_ascii
           no_pattern int_of_digits stable_sort_values_perm
           "(" 3 50 "Fare" "asc" numbers_only);
    [discriminate | reflexivity | reflexivity | reflexivity | lia | lia].
Defined.

Lemma heatmap_downsample_witness :
  let hm := stable_sort_values "Fare" true (with_fare three_passengers) in
  exists positions picked,
    heatmap stable_sort_values 2 three_passengers = Ok (map point picked)
    /\ map Some picked = map (fun p => nth_error hm (Z.to_nat p)) positions
    /\ len picked = 2
    /\ StronglySorted Z.lt positions
    /\ hd_error positions = Some 0
    /\ Forall (fun p => 0 <= p <= len hm - 2) positions.
Proof.
  apply (heatmap_downsample stable_sort_values stable_sort_values_perm
           2 three_passengers);
    [reflexivity | reflexivity | reflexivity | lia | reflexivity].
Defined.

(** ** [_clean] *)

Lemma lstrip_idem (s : string) : lstrip (lstrip s) = lstrip s.
Proof.
  induction s as [| c s IH]; cbn [lstrip]; [reflexivity |].
  destruct (is_space c) eqn:E; [exact IH |]. cbn [lstrip]. now rewrite E.
Qed.

Lemma rstrip_idem (s : string) : rstrip (rstrip s) = rstrip s.
Proof.
  induction s as [| c s IH]; cbn [rstrip]; [reflexivity |].
  destruct (rstrip s) as [| c' t] eqn:Et.
  - destruct (is_space c) eqn:E; cbn [rstrip]; [reflexivity | now rewrite E].
  - cbn [rstrip] in *. now rewrite IH.
Qed.

Lemma rstrip_lstrip (s : string) : rstrip (lstrip s) = lstrip (rstrip s).
Proof.
  induction s as [| c s IH]; [reflexivity |].
  cbn [lstrip rstrip]. destruct (is_space c) eqn:E.
  - rewrite IH. destruct (rstrip s) as [| c' t]; cbn [lstrip]; [reflexivity |].
    now rewrite E.
  - cbn [rstrip]. destruct (rstrip s) as [| c' t]; rewrite ?E; cbn [lstrip];
      now rewrite ?E.
Qed.

Lemma str_strip_idem (s : string) : str_strip (str_strip s) = str_strip s.
Proof.
  unfold str_strip.
  now rewrite rstrip_lstrip, lstrip_idem, rstrip_idem.
Qed.

Lemma is_space_lower (c : ascii) : is_space (ascii_lower c) = is_space c.
Proof. destruct c as [[] [] [] [] [] [] [] []]; reflexivity. Qed.

Lemma ascii_lower_idem (c : ascii) : ascii_lower (ascii_lower c) = ascii_lower c.
Proof. destruct c as [[] [] [] [] [] [] [] []]; reflexivity. Qed.

Lemma lower_ascii_idem (s : string) : lower_ascii (lower_ascii s) = lower_ascii s.
Proof.
  induction s as [| c s IH]; cbn [lower_ascii]; [reflexivity |].
  now rewrite ascii_lower_idem, IH.
Qed.

Lemma lstrip_lower (s : string) : lstrip (lower_ascii s) = lower_ascii (lstrip s).
Proof.
  induction s as [| c s IH]; cbn [lower_ascii lstrip]; [reflexivity |].
  rewrite is_space_lower. now destruct (is_space c).
Qed.

Lemma rstrip_lower (s : string) : rstrip (lower_ascii s) = lower_ascii (rstrip s).
Proof.
  induction s as [| c s IH]; cbn [lower_ascii rstrip]; [reflexivity |].
  rewrite IH, is_space_lower.
  destruct (rstrip s) as [| c' t]; cbn [lower_ascii]; [| reflexivity].
  now destruct (is_space c).
Qed.

Lemma str_strip_lower (s : string) :
  str_strip (lower_ascii s) = lower_ascii (str_strip s).
Proof. unfold str_strip. now rewrite rstrip_lower, lstrip_lower. Qed.

Lemma clean_sex_idem (x : option string) : clean_sex (clean_sex x) = clean_sex x.
Proof.
  destruct x as [s |]; [| reflexivity]. cbn [clean_sex option_map]. f_equal.
  now rewrite str_strip_lower, str_strip_idem, lower_ascii_idem.
Qed.

Lemma port_map_names (k v : string) :
  port_map k = Some v -> port_map (str_strip v) = None.
Proof.
  unfold port_map.
  destruct (String.eqb k "S"); [intros H; injection H as <-; reflexivity |].
  destruct (String.eqb k "C"); [intros H; injection H as <-; reflexivity |].
  destruct (String.eqb k "Q"); [intros H; injection H as <-; reflexivity |].
  discriminate.
Qed.

Lemma clean_port_idem (x : option string) :
  clean_port (clean_port x) = clean_port x.
Proof.
  destruct x as [s |]; [| reflexivity]. cbn [clean_port].
  destruct (port_map (str_strip s)) as [v |] eqn:E.
  - now rewrite (port_map_names _ _ E).
  - now rewrite E.
Qed.

(** X15.  Cleaning a cleaned table changes nothing: the port names and the
    sexes [_clean] writes are left as they are by a second pass. *)
Theorem _clean_idempotent (df : DataFrame) : _clean (_clean df) = _clean df.
Proof.
  unfold _clean. cbn [columns rows]. f_equal.
  rewrite map_map. apply map_ext. intros r. unfold clean_row.
  cbn [PassengerId Survived Pclass Name Sex Age Fare Boarded Embarked
       Hometown Destination Lifeboat].
  change (has_column {| columns := columns df; rows := _ |} ?c)
    with (has_column df c).
  destruct (has_column df "Sex"), (has_column df "Boarded"),
           (has_column df "Embarked");
    now rewrite ?clean_sex_idem, ?clean_port_idem.
Qed.

Lemma has_column_clean (df : DataFrame) (c : string) :
  has_column (_clean df) c = has_column df c.
Proof. reflexivity. Qed.

Lemma len_filter_map {A B : Type} (h : A -> B) (f : B -> bool) (l : list A) :
  len (filter f (map h l)) = len (filter (fun a => f (h a)) l).
Proof.
  unfold len. f_equal.
  induction l as [| a l IH]; cbn [map filter]; [reflexivity |].
  destruct (f (h a)); cbn [List.length]; now rewrite IH.
Qed.

Lemma rows_clean (df : DataFrame) (r' : Row) :
  has_column df (col_name (_port_col df)) = true ->
  In r' (rows (_clean df)) ->
  exists r, In r (rows df)
            /\ port_of (_clean df) r' = clean_port (port_of df r).
Proof.
  intros Hcol Hin. unfold _clean in Hin. cbn [rows] in Hin.
  apply in_map_iff in Hin. destruct Hin as [r [<- Hr]].
  exists r. split; [exact Hr |].
  unfold port_of, _port_col in *. rewrite has_column_clean.
  destruct (has_column df "Boarded") eqn:HB; unfold clean_row;
    cbn [col_of col_name cBoarded cEmbarked Boarded Embarked] in *.
  - now rewrite HB.
  - now rewrite Hcol.
Qed.

Lemma port_count_clean (df : DataFrame) (p : string) :
  has_column df (col_name (_port_col df)) = true ->
  port_count (_clean df) p = len (filter (boarded_as df p) (rows df)).
Proof.
  intros Hcol. unfold port_count. unfold _clean at 2. cbn [rows].
  rewrite len_filter_map. unfold len. f_equal. f_equal.
  apply filter_ext. intros r.
  unfold boarded_as, eq_str, is_true, port_of, _port_col.
  rewrite has_column_clean. unfold _port_col in Hcol.
  destruct (has_column df "Boarded") eqn:HB; unfold clean_row;
    cbn [col_of col_name cBoarded cEmbarked Boarded Embarked] in *;
    rewrite ?HB.
  - destruct (clean_port (Boarded r)) as [v |];
      [destruct (String.eqb v p) |]; reflexivity.
  - rewrite Hcol. destruct (clean_port (Embarked r)) as [v |];
      [destruct (String.eqb v p) |]; reflexivity.
Qed.

Lemma clean_port_no_code (x : option string) (k : string) :
  clean_port x = Some k ->
  k <> "S"%string /\ k <> "C"%string /\ k <> "Q"%string.
Proof.
  destruct x as [s |]; [| discriminate]. cbn [clean_port].
  destruct (port_map (str_strip s)) as [v |] eqn:E; intros H; injection H as <-.
  - unfold port_map in E.
    destruct (String.eqb (str_strip s) "S");
      [injection E as <-; repeat split; discriminate |].
    destruct (String.eqb (str_strip s) "C");
      [injection E as <-; repeat split; discriminate |].
    destruct (String.eqb (str_strip s) "Q");
      [injection E as <-; repeat split; discriminate |].
    discriminate.
  - repeat split; intros ->; discriminate.
Qed.

(** X16.  On a cleaned table [by_port] lists no port under its code:
    no entry is named "S", "C" or "Q", and the count of an entry is the
    number of rows whose port cell [_clean] turned into the entry's name, so
    a row with the code "S", with or without white space around it, is
    counted under "Southampton" together with the rows that had the name. *)
Theorem by_port_after_clean (df : DataFrame) :
  has_column df (col_name (_port_col df)) = true ->
  exists out,
    by_port (_clean df) = Ok out
    /\ forall e, In e out ->
         port e <> "S"%string /\ port e <> "C"%string /\ port e <> "Q"%string
         /\ count e = len (filter (boarded_as df (port e)) (rows df))
         /\ 0 < count e.
Proof.
  intros Hcol.
  assert (Hcol' : has_column (_clean df) (col_name (_port_col (_clean df))) = true).
  { unfold _port_col in *. now rewrite !has_column_clean. }
  eexists. split; [apply (by_port_unfold _ Hcol') |].
  intros e He.
  apply (Permutation_in _ (sorted_perm _ _)) in He.
  apply in_somes_map in He. destruct He as [k [Hk He]].
  apply group_keys_In, in_values in Hk. destruct Hk as [r' [Hr' Hport]].
  destruct (rows_clean df r' Hcol Hr') as [r [Hr Hclean]].
  unfold port_entry in He. destruct (strip_is_empty k); [discriminate |].
  injection He as <-. cbn [port count].
  rewrite Hclean in Hport.
  destruct (clean_port_no_code _ _ Hport) as [HS [HC HQ]].
  repeat (split; [assumption |]).
  rewrite (port_count_clean df k Hcol). split; [reflexivity |].
  assert (Hin : In r (filter (boarded_as df k) (rows df))).
  { apply filter_In. split; [exact Hr |].
    unfold boarded_as. rewrite Hport. apply String.eqb_refl. }
  unfold len. destruct (filter (boarded_as df k) (rows df));
    [destruct Hin | cbn [List.length]; lia].
Qed.

Lemma sex_of_clean_row (df : DataFrame) (s : string) (r : Row) :
  has_column df "Sex" = true ->
  is_true (eq_str Sex s (clean_row df r)) = sex_as s r.
Proof.
  intros HX. unfold eq_str, is_true, sex_as, clean_row. cbn [Sex]. rewrite HX.
  destruct (clean_sex (Sex r)) as [v |]; [| reflexivity].
  destruct (String.eqb v s); reflexivity.
Qed.

Lemma sex_rows_clean (df : DataFrame) (s : string) :
  has_column df "Sex" = true ->
  sex_rows (_clean df) s = map (clean_row df) (filter (sex_as s) (rows df)).
Proof.
  intros HX. unfold sex_rows, _clean. cbn [rows].
  induction (rows df) as [| r l IH]; [reflexivity |].
  cbn [map filter]. rewrite IH, (sex_of_clean_row df s r HX).
  now destruct (sex_as s r).
Qed.

(** X17.  On a cleaned table [by_gender] counts a passenger by the sex cell
    with the white space at its ends removed and in lower case: the group
    "female" has the rows whose raw cell reads "female" in any case and
    with any white space around it, and the survivors of a group are summed
    over these rows. *)
Theorem by_gender_after_clean (df : DataFrame) :
  has_column df "Sex" = true ->
  has_column df "Survived" = true ->
  exists out,
    by_gender (_clean df) = Ok out
    /\ map ge_sex out
       = filter (fun s => negb (len (filter (sex_as s) (rows df)) =? 0))
                ["female"; "male"]%string
    /\ forall e, In e out ->
         ge_survived e + ge_lost e
         = len (filter (sex_as (ge_sex e)) (rows df))
         /\ ge_survived e
            = Zsum (somes (map Survived (filter (sex_as (ge_sex e)) (rows df)))).
Proof.
  intros HX HS.
  assert (Hlen : forall s, len (sex_rows (_clean df) s)
                           = len (filter (sex_as s) (rows df))).
  { intros s. rewrite (sex_rows_clean df s HX). unfold len.
    now rewrite length_map. }
  assert (Hsum : forall s, map Survived (sex_rows (_clean df) s)
                           = map Survived (filter (sex_as s) (rows df))).
  { intros s. rewrite (sex_rows_clean df s HX), map_map.
    apply map_ext. intros r. reflexivity. }
  exists (somes (map (gender_outcome (_clean df)) gender_labels)).
  split.
  { unfold by_gender. apply collect_ok. intros sl _.
    now apply by_gender_step_outcome. }
  split.
  { unfold gender_labels, gender_outcome. cbn [map fst snd filter].
    rewrite <- !Hlen.
    destruct (len (sex_rows (_clean df) "female") =? 0),
             (len (sex_rows (_clean df) "male") =? 0); reflexivity. }
  intros e He. apply in_somes_map in He. destruct He as [sl [_ He]].
  unfold gender_outcome in He.
  destruct (len (sex_rows (_clean df) (fst sl)) =? 0); [discriminate |].
  injection He as <-. cbn [ge_sex ge_survived ge_lost].
  rewrite Hsum, Hlen. split; [lia | reflexivity].
Qed.

Lemma by_port_after_clean_witness :
  exists out,
    by_port (_clean raw_table) = Ok out
    /\ forall e, In e out ->
         port e <> "S"%string /\ port e <> "C"%string /\ port e <> "Q"%string
         /\ count e = len (filter (boarded_as raw_table (port e))
                                  (rows raw_table))
         /\ 0 < count e.
Proof.
  apply (by_port_after_clean raw_table). reflexivity.
Defined.

Lemma by_gender_after_clean_witness :
  exists out,
    by_gender (_clean raw_table) = Ok out
    /\ map ge_sex out
       = filter (fun s => negb (len (filter (sex_as s) (rows raw_table)) =? 0))
                ["female"; "male"]%string
    /\ forall e, In e out ->
         ge_survived e + ge_lost e
         = len (filter (sex_as (ge_sex e)) (rows raw_table))
         /\ ge_survived e
            = Zsum (somes (map Survived
                             (filter (sex_as (ge_sex e)) (rows raw_table)))).
Proof.
  apply (by_gender_after_clean raw_table); reflexivity.
Defined.

(** ** [get_df]: calls that do not overlap *)

Section SerialCalls.

Variable source : DataFrame.

Lemma run_app (s1 s2 : list nat) (w : Cache.world) :
  Cache.run source (s1 ++ s2) w
  = match Cache.run source s1 w with
    | Some w' => Cache.run source s2 w'
    | None => None
    end.
Proof.
  revert w. induction s1 as [| i s1 IH]; intros w; cbn [app Cache.run];
    [reflexivity |].
  destruct (Cache.step source i w); [apply IH | reflexivity].
Qed.

Lemma set_nth_app {A : Type} (l1 l2 : list A) (x y : A) :
  Cache.set_nth (List.length l1) x (l1 ++ y :: l2) = l1 ++ x :: l2.
Proof.
  induction l1 as [| a l1 IH]; cbn [List.length app Cache.set_nth];
    [reflexivity | now rewrite IH].
Qed.

Lemma run_readers (m k l : nat) :
  Cache.run source (seq k m)
    {| Cache.cache := Some source;
       Cache.threads := repeat (Cache.Done source) k
                        ++ repeat Cache.ReadCache m;
       Cache.loads := l |}
  = Some {| Cache.cache := Some source;
            Cache.threads := repeat (Cache.Done source) (k + m);
            Cache.loads := l |}.
Proof.
  revert k. induction m as [| m IH]; intros k.
  - cbn [seq Cache.run repeat]. now rewrite app_nil_r, Nat.add_0_r.
  - cbn [seq Cache.run repeat]. unfold Cache.step. cbn [Cache.threads Cache.cache].
    rewrite nth_error_app2 by (rewrite repeat_length; lia).
    rewrite repeat_length, Nat.sub_diag. cbn [nth_error Cache.get_df_step].
    rewrite <- (repeat_length (Cache.Done source) k) at 2.
    rewrite set_nth_app, Nat.add_0_r.
    replace (repeat (Cache.Done source) k
             ++ Cache.Done source :: repeat Cache.ReadCache m)
      with (repeat (Cache.Done source) (S k) ++ repeat Cache.ReadCache m).
    + rewrite IH. now rewrite Nat.add_succ_r.
    + cbn [repeat]. rewrite repeat_cons, <- app_assoc. reflexivity.
Qed.

(** X18.  When [n >= 1] calls of [get_df] run one after another, the table
    is loaded exactly once, by the first call; every call returns the loaded
    table and the cache holds it. *)
Theorem get_df_serial_calls (n : nat) :
  (1 <= n)%nat ->
  Cache.run source (serial n) (Cache.init n)
  = Some {| Cache.cache := Some source;
            Cache.threads := repeat (Cache.Done source) n;
            Cache.loads := 1 |}.
Proof.
  intros Hn. destruct n as [| m]; [lia |].
  unfold serial. rewrite run_app.
  replace (S m - 1)%nat with m by lia.
  unfold Cache.init. cbn [repeat Cache.run Cache.step Cache.threads Cache.cache
                          nth_error Cache.get_df_step Cache.set_nth Cache.loads
                          Nat.add].
  apply (run_readers m 1 1).
Qed.

End SerialCalls.

Lemma get_df_serial_calls_witness :
  Cache.run three_passengers (serial 3) (Cache.init 3)
  = Some {| Cache.cache := Some three_passengers;
            Cache.threads := repeat (Cache.Done three_passengers) 3;
            Cache.loads := 1 |}.
Proof.
  apply (get_df_serial_calls three_passengers 3). lia.
Defined.
